(** * DevQuine: the generation client (api.py) and the interactive shell (app.py)

    A shallow embedding of the two Python modules of the repository and the
    properties their specification states about them.

    - [PyStr]     Python [str] values and the three built-in methods the
                  client uses ([split], [strip], [join]).
    - [Api]       api.py: the two functions that build a prompt and call the
                  completion service, in a state-and-exception monad.
    - [App]       app.py: the [ArticleGenerator] widget, its slots, the
                  worker thread and the event loop that drives them. *)

From Stdlib Require Import String Ascii PrimFloat.
From Stdlib Require Import List NArith Arith Bool Lia.
Import ListNotations.
Open Scope list_scope.

Set Implicit Arguments.

(* ===================================================================== *)
(** ** Python strings *)
(* ===================================================================== *)

Module PyStr.

(** A Python [str] is a sequence of Unicode code points; [len] and indexing
    count code points. *)
Definition char := N.
Definition str := list char.

(** The code points of a literal of the source (all of them ASCII). *)
Definition lit (s : string) : str := map N_of_ascii (list_ascii_of_string s).

(** The escape [\n] of the source's literals. *)
Definition nl : str := [10%N].

Definition comma : char := 44%N.
Definition period : char := 46%N.

(** [str.isspace] on one code point: the characters [str.strip()] removes
    when called without argument (CPython's [_PyUnicode_IsWhitespace]). *)
Definition isspace (c : char) : bool :=
  ((9 <=? c) && (c <=? 13) || (28 <=? c) && (c <=? 32)
   || (c =? 133) || (c =? 160) || (c =? 5760)
   || (8192 <=? c) && (c <=? 8202)
   || (c =? 8232) || (c =? 8233) || (c =? 8239) || (c =? 8287)
   || (c =? 12288))%N.

(** [s.lstrip()], [s.rstrip()] and [s.strip()]. *)
Fixpoint lstrip (s : str) : str :=
  match s with
  | [] => []
  | c :: s' => if isspace c then lstrip s' else s
  end.

Definition rstrip (s : str) : str := rev (lstrip (rev s)).

Definition strip (s : str) : str := rstrip (lstrip s).

(** [s.split(sep)] for a separator of one character (the source only
    calls it with [","]): the pieces between the separators, in order;
    a string without separator, the empty one too, is one piece. *)
Fixpoint split (sep : char) (s : str) : list str :=
  match s with
  | [] => [[]]
  | c :: s' =>
      if (c =? sep)%N then [] :: split sep s'
      else match split sep s' with
           | p :: ps => (c :: p) :: ps
           | [] => [[c]]
           end
  end.

(** [sep.join(l)]. *)
Fixpoint join (sep : str) (l : list str) : str :=
  match l with
  | [] => []
  | x :: l' =>
      match l' with
      | [] => x
      | _ :: _ => x ++ sep ++ join sep l'
      end
  end.

(** [c * n] for a one-character string [c]: [n] copies (none for [n = 0]). *)
Definition times (c : char) (n : nat) : str := repeat c n.

(** [needle in s]: [needle] occurs in [s] as a contiguous run. *)
Definition substring (needle s : str) : Prop :=
  exists before after, s = before ++ needle ++ after.

End PyStr.
Import PyStr.

(* ===================================================================== *)
(** ** api.py *)
(* ===================================================================== *)

Module Api.

(** What [except Exception as e] binds: an instance of a subclass of
    [Exception], of which the client reads only [str(e)]. *)
Record Exception := mkException {
  exc_class : string;
  exc_message : str
}.

Definition py_str (e : Exception) : str := exc_message e.

(** [l[0]] on an empty list. *)
Definition IndexError : Exception :=
  mkException "IndexError" (lit "list index out of range").

(** The keyword arguments of [openai.Completion.create]. *)
Record Request := mkRequest {
  engine : str;
  prompt : str;
  max_tokens : nat;
  temperature : float
}.

(** The part of the service's answer the client reads:
    [response.choices[0].text]. *)
Record Choice := mkChoice { text : str }.
Record Response := mkResponse { choices : list Choice }.

(** A Python call returns a value or raises. *)
Inductive result (A : Type) : Type :=
| Return (a : A)
| Raise (e : Exception).
Arguments Raise {A} e.

(** The default of the [temperature] parameters, the float [0.7]. *)
Definition default_temperature : float := 0x1.6666666666666p-1%float.

Section Client.

(** The completion service is an external collaborator: it answers a
    request or raises (a network, authentication or quota error of the
    [openai] package, each an [Exception]), and may change between calls. *)
Variable World : Type.
Variable service : Request -> World -> result Response * World.

(** What a thread running the client acts on: the service, the requests
    sent to it so far, the [articleGenerated] signals emitted and not yet
    delivered, and what was printed. *)
Record Runtime := mkRuntime {
  world : World;
  sent : list Request;
  emitted : list str;
  stdout : list str
}.

(** Computations that read and change the runtime and may raise. *)
Definition M (A : Type) : Type := Runtime -> result A * Runtime.

Definition ret {A} (a : A) : M A := fun rt => (Return a, rt).

Definition raise {A} (e : Exception) : M A := fun rt => (Raise e, rt).

Definition bind {A B} (m : M A) (k : A -> M B) : M B :=
  fun rt =>
    match m rt with
    | (Return a, rt') => k a rt'
    | (Raise e, rt') => (Raise e, rt')
    end.

(** [try: body except Exception as e: handler(e)]. *)
Definition try_except {A} (body : M A) (handler : Exception -> M A) : M A :=
  fun rt =>
    match body rt with
    | (Return a, rt') => (Return a, rt')
    | (Raise e, rt') => handler e rt'
    end.

Notation "x <- m ;; k" := (bind m (fun x => k))
  (at level 61, m at next level, right associativity).

(** [openai.Completion.create(engine=..., prompt=..., max_tokens=...,
    temperature=...)]: the request goes out, the service answers. *)
Definition Completion_create (req : Request) : M Response :=
  fun rt =>
    let (answer, w) := service req (world rt) in
    (answer, mkRuntime w (sent rt ++ [req]) (emitted rt) (stdout rt)).

(** [l[0]]. *)
Definition index0 {A} (l : list A) : M A :=
  match l with
  | x :: _ => ret x
  | [] => raise IndexError
  end.

(** The tag segment: [", ".join([tag.strip() for tag in tags.split(",")])]. *)
Definition tag_string (tags : str) : str :=
  join (lit ", ") (map strip (split comma tags)).

Definition generate_article_outline
    (title notes tags : str) (temperature : float) : M str :=
  try_except
    (let tag_string := join (lit ", ") (map strip (split comma tags)) in
     let prompt :=
       lit "Title: " ++ title ++ nl ++ lit "Tags: " ++ tag_string ++ nl
       ++ lit "Notes: " ++ notes ++ nl ++ nl
       ++ lit "Create a detailed outline for an article based on the above information:" in
     response <- Completion_create
                   (mkRequest (lit "text-davinci-003") prompt 200 temperature) ;;
     choice <- index0 (choices response) ;;
     ret (strip (text choice)))
    (fun e => ret (py_str e)).

Definition generate_full_article_from_outline
    (outline : str) (temperature : float) : M str :=
  try_except
    (let prompt :=
       lit "Write a detailed article based on the following outline:" ++ nl
       ++ outline ++ nl in
     response <- Completion_create
                   (mkRequest (lit "text-davinci-003") prompt 800 temperature) ;;
     choice <- index0 (choices response) ;;
     ret (strip (text choice)))
    (fun e => ret (py_str e)).

End Client.

End Api.
Import Api.

(* ===================================================================== *)
(** ** app.py *)
(* ===================================================================== *)

Module App.

(** [QTimer]: what the slots do to it. The timer fires its [timeout]
    signal again and again while it is active. *)
Record QTimer := mkQTimer {
  isActive : bool;
  interval : nat
}.

Definition QTimer_new : QTimer := mkQTimer false 0.
Definition start (msec : nat) (t : QTimer) : QTimer := mkQTimer true msec.
Definition stop (t : QTimer) : QTimer := mkQTimer false (interval t).

(** [QTextBrowser]: the characters its document holds and the position of
    the text cursor, which Qt counts in UTF-16 units: a character beyond
    U+FFFF takes two. The document does not hold a text as it was given:
    [QTextCursor.insertText] starts a new paragraph at a line feed, a
    carriage return (with the line feed after it, if any), U+2029, U+FDD0
    and U+FDD1, and the document holds U+2029 in their place;
    [QTextDocument.toPlainText] reads U+2029, U+2028, U+FDD0 and U+FDD1 back
    as a line feed and the no-break space U+00A0 as a blank. Strings are
    taken to hold no lone surrogate. *)
Record QTextBrowser := mkQTextBrowser {
  document : str;
  cursor_at : nat
}.

Definition utf16_units (c : char) : nat := if (c <? 65536)%N then 1 else 2.

Fixpoint utf16_length (s : str) : nat :=
  match s with
  | [] => 0
  | c :: s' => utf16_units c + utf16_length s'
  end.

(** The characters of a document before the position [n], and those from
    it on. *)
Fixpoint before_position (n : nat) (doc : str) : str :=
  match doc with
  | [] => []
  | c :: doc' =>
      if utf16_units c <=? n
      then c :: before_position (n - utf16_units c) doc'
      else []
  end.

Fixpoint from_position (n : nat) (doc : str) : str :=
  match doc with
  | [] => []
  | c :: doc' =>
      if utf16_units c <=? n
      then from_position (n - utf16_units c) doc'
      else doc
  end.

Definition paragraph_separator : char := 8233%N.

Definition breaks_paragraph (c : char) : bool :=
  ((c =? 10) || (c =? 13) || (c =? 8233) || (c =? 64976) || (c =? 64977))%N.

(** What the document holds for an inserted text. *)
Fixpoint stored (s : str) : str :=
  match s with
  | [] => []
  | c :: s' =>
      if (c =? 13)%N then
        match s' with
        | c' :: s'' =>
            if (c' =? 10)%N then paragraph_separator :: stored s''
            else paragraph_separator :: stored s'
        | [] => [paragraph_separator]
        end
      else if breaks_paragraph c then paragraph_separator :: stored s'
      else c :: stored s'
  end.

Definition read_back (c : char) : char :=
  if ((c =? 8233) || (c =? 8232) || (c =? 64976) || (c =? 64977))%N then 10%N
  else if (c =? 160)%N then 32%N
  else c.

(** [toPlainText()]. *)
Definition toPlainText (b : QTextBrowser) : str := map read_back (document b).

(** What a character inserted on its own reads back as. *)
Definition shown (c : char) : char :=
  read_back (if breaks_paragraph c then paragraph_separator else c).

Definition QTextBrowser_new : QTextBrowser := mkQTextBrowser [] 0.

(** [clear()]: the document is emptied. *)
Definition clear (b : QTextBrowser) : QTextBrowser := mkQTextBrowser [] 0.

(** [setText(s)] for a plain text [s], which is what the source passes
    (a caption without markup): the document is replaced, and the cursor
    is left at its start. *)
Definition setText (s : str) (b : QTextBrowser) : QTextBrowser :=
  mkQTextBrowser (stored s) 0.

(** [insertPlainText(s)]: the text goes in at the cursor, and the cursor
    is left after it. *)
Definition insertPlainText (s : str) (b : QTextBrowser) : QTextBrowser :=
  mkQTextBrowser
    (before_position (cursor_at b) (document b) ++ stored s
     ++ from_position (cursor_at b) (document b))
    (cursor_at b + utf16_length (stored s)).

(** The attributes of an [ArticleGenerator] that its slots read or write.
    [full_generated_text] and [current_typing_position] do not exist until
    [update_gui_with_generated_article] first assigns them. *)
Record ArticleGenerator := mkArticleGenerator {
  title_entry : str;
  tags_entry : str;
  notes_entry : str;
  generated_text_area : QTextBrowser;
  generated_text : str;
  ellipsis_timer : QTimer;
  ellipsis_count : nat;
  typing_timer : QTimer;
  full_generated_text : option str;
  current_typing_position : option nat
}.

(** [ArticleGenerator()]: [__init__] after [init_ui]. *)
Definition ArticleGenerator_new : ArticleGenerator :=
  mkArticleGenerator [] [] [] QTextBrowser_new [] QTimer_new 0 QTimer_new None None.

Definition set_title_entry (s : str) (self : ArticleGenerator) :=
  mkArticleGenerator s (tags_entry self) (notes_entry self)
    (generated_text_area self) (generated_text self) (ellipsis_timer self)
    (ellipsis_count self) (typing_timer self) (full_generated_text self)
    (current_typing_position self).

Definition set_tags_entry (s : str) (self : ArticleGenerator) :=
  mkArticleGenerator (title_entry self) s (notes_entry self)
    (generated_text_area self) (generated_text self) (ellipsis_timer self)
    (ellipsis_count self) (typing_timer self) (full_generated_text self)
    (current_typing_position self).

Definition set_notes_entry (s : str) (self : ArticleGenerator) :=
  mkArticleGenerator (title_entry self) (tags_entry self) s
    (generated_text_area self) (generated_text self) (ellipsis_timer self)
    (ellipsis_count self) (typing_timer self) (full_generated_text self)
    (current_typing_position self).

Definition set_generated_text_area (b : QTextBrowser) (self : ArticleGenerator) :=
  mkArticleGenerator (title_entry self) (tags_entry self) (notes_entry self)
    b (generated_text self) (ellipsis_timer self)
    (ellipsis_count self) (typing_timer self) (full_generated_text self)
    (current_typing_position self).

Definition set_ellipsis_timer (t : QTimer) (self : ArticleGenerator) :=
  mkArticleGenerator (title_entry self) (tags_entry self) (notes_entry self)
    (generated_text_area self) (generated_text self) t
    (ellipsis_count self) (typing_timer self) (full_generated_text self)
    (current_typing_position self).

Definition set_ellipsis_count (n : nat) (self : ArticleGenerator) :=
  mkArticleGenerator (title_entry self) (tags_entry self) (notes_entry self)
    (generated_text_area self) (generated_text self) (ellipsis_timer self)
    n (typing_timer self) (full_generated_text self)
    (current_typing_position self).

Definition set_typing_timer (t : QTimer) (self : ArticleGenerator) :=
  mkArticleGenerator (title_entry self) (tags_entry self) (notes_entry self)
    (generated_text_area self) (generated_text self) (ellipsis_timer self)
    (ellipsis_count self) t (full_generated_text self)
    (current_typing_position self).

Definition set_full_generated_text (s : str) (self : ArticleGenerator) :=
  mkArticleGenerator (title_entry self) (tags_entry self) (notes_entry self)
    (generated_text_area self) (generated_text self) (ellipsis_timer self)
    (ellipsis_count self) (typing_timer self) (Some s)
    (current_typing_position self).

Definition set_current_typing_position (n : nat) (self : ArticleGenerator) :=
  mkArticleGenerator (title_entry self) (tags_entry self) (notes_entry self)
    (generated_text_area self) (generated_text self) (ellipsis_timer self)
    (ellipsis_count self) (typing_timer self) (full_generated_text self)
    (Some n).

(** *** The slots that run on the GUI thread *)

(** [generate_article], the part on the GUI thread: the three fields are
    read for the thread it starts, and the ellipsis timer is started. *)
Definition generate_article (self : ArticleGenerator)
  : ArticleGenerator * (str * str * str) :=
  let title := title_entry self in
  let tags := tags_entry self in
  let notes := notes_entry self in
  let self := set_ellipsis_timer (start 500 (ellipsis_timer self)) self in
  (self, (title, tags, notes)).

Definition update_gui_with_generated_article
    (text : str) (self : ArticleGenerator) : ArticleGenerator :=
  let self := set_ellipsis_timer (stop (ellipsis_timer self)) self in
  let self := set_generated_text_area (clear (generated_text_area self)) self in
  let self := set_full_generated_text text self in
  let self := set_current_typing_position 0 self in
  set_typing_timer (start 30 (typing_timer self)) self.

(** [type_next_character]; [None] is the [AttributeError] of reading an
    attribute that was never assigned, or the [IndexError] of the
    subscript. *)
Definition type_next_character (self : ArticleGenerator)
  : option ArticleGenerator :=
  match current_typing_position self, full_generated_text self with
  | Some position, Some full =>
      if position <? length full then
        match nth_error full position with
        | Some current_text =>
            let self :=
              set_generated_text_area
                (insertPlainText [current_text] (generated_text_area self)) self in
            Some (set_current_typing_position (position + 1) self)
        | None => None
        end
      else Some (set_typing_timer (stop (typing_timer self)) self)
  | _, _ => None
  end.

Definition update_ellipsis (self : ArticleGenerator) : ArticleGenerator :=
  let self := set_ellipsis_count ((ellipsis_count self + 1) mod 4) self in
  set_generated_text_area
    (setText (lit "Generating article" ++ times period (ellipsis_count self))
       (generated_text_area self))
    self.

Definition finish_loading (self : ArticleGenerator) : ArticleGenerator :=
  update_gui_with_generated_article (lit "Sample generated article text.") self.

(** *** The worker thread and the event loop *)

Section Shell.

Variable World : Type.
Variable service : Request -> World -> result Response * World.

Notation "x <- m ;; k" := (bind m (fun x => k))
  (at level 61, m at next level, right associativity).

(** [self.articleGenerated.emit(text)] from the worker thread: the
    emission is queued for the GUI thread. *)
Definition emit (text : str) : M World unit :=
  fun rt => (Return tt,
             mkRuntime (world rt) (sent rt) (emitted rt ++ [text]) (stdout rt)).

Definition print (s : str) : M World unit :=
  fun rt => (Return tt,
             mkRuntime (world rt) (sent rt) (emitted rt) (stdout rt ++ [s])).

Definition call_openai_api (title tags notes : str) : M World unit :=
  try_except
    (outline <- generate_article_outline service title notes tags
                  default_temperature ;;
     generated_article <- generate_full_article_from_outline service outline
                            default_temperature ;;
     emit generated_article)
    (fun e => print (py_str e)).

(** The application: the widget, the arguments of the worker threads
    started and not yet run, and the runtime the workers act on, whose
    [emitted] signals wait for the GUI thread. *)
Record System := mkSystem {
  gui : ArticleGenerator;
  threads : list (str * str * str);
  runtime : Runtime World
}.

(** The external triggers: the user edits a field (which then reads back
    as the given string) or clicks the button,
    a started worker thread runs to its end (its two calls, one after the
    other, and its [emit], taken as one step), the oldest emitted signal
    reaches its slot on the GUI thread, a timer fires. *)
Inductive Event : Type :=
| TitleEdited (s : str)
| TagsEdited (s : str)
| NotesEdited (s : str)
| GenerateClicked
| ThreadRuns (i : nat)
| SignalDelivered
| EllipsisTimeout
| TypingTimeout.

Fixpoint remove_nth {A} (i : nat) (l : list A) : list A :=
  match l, i with
  | [], _ => []
  | _ :: l', 0 => l'
  | x :: l', S i' => x :: remove_nth i' l'
  end.

(** One trigger; [None] when it cannot happen in this state (no such
    thread, no signal waiting, the timer is not running) or when the slot
    raises. *)
Definition step (ev : Event) (s : System) : option System :=
  match ev with
  | TitleEdited t => Some (mkSystem (set_title_entry t (gui s)) (threads s) (runtime s))
  | TagsEdited t => Some (mkSystem (set_tags_entry t (gui s)) (threads s) (runtime s))
  | NotesEdited t => Some (mkSystem (set_notes_entry t (gui s)) (threads s) (runtime s))
  | GenerateClicked =>
      let (g, args) := generate_article (gui s) in
      Some (mkSystem g (threads s ++ [args]) (runtime s))
  | ThreadRuns i =>
      match nth_error (threads s) i with
      | Some (title, tags, notes) =>
          let (_, rt) := call_openai_api title tags notes (runtime s) in
          Some (mkSystem (gui s) (remove_nth i (threads s)) rt)
      | None => None
      end
  | SignalDelivered =>
      match emitted (runtime s) with
      | text :: waiting =>
          Some (mkSystem (update_gui_with_generated_article text (gui s))
                  (threads s)
                  (mkRuntime (world (runtime s)) (sent (runtime s)) waiting
                     (stdout (runtime s))))
      | [] => None
      end
  | EllipsisTimeout =>
      if isActive (ellipsis_timer (gui s))
      then Some (mkSystem (update_ellipsis (gui s)) (threads s) (runtime s))
      else None
  | TypingTimeout =>
      if isActive (typing_timer (gui s))
      then match type_next_character (gui s) with
           | Some g => Some (mkSystem g (threads s) (runtime s))
           | None => None
           end
      else None
  end.

Fixpoint run (evs : list Event) (s : System) : option System :=
  match evs with
  | [] => Some s
  | ev :: evs' =>
      match step ev s with
      | Some s' => run evs' s'
      | None => None
      end
  end.

(** The application as [main] starts it. *)
Definition initial (w : World) : System :=
  mkSystem ArticleGenerator_new [] (mkRuntime w [] [] []).

End Shell.

(** *** The animation phases of the specification *)

Inductive Phase : Type := Idle | Loading | Typing.

(** The phase a widget is in, read off its two timers: loading while only
    the ellipsis timer runs, typing while only the typing timer runs, idle
    while neither does. With both running the widget is in no phase. *)
Definition phase (self : ArticleGenerator) : option Phase :=
  match isActive (ellipsis_timer self), isActive (typing_timer self) with
  | false, false => Some Idle
  | true, false => Some Loading
  | false, true => Some Typing
  | true, true => None
  end.

(** The phase that follows a phase. *)
Definition next_phase (p : Phase) : Phase :=
  match p with
  | Idle => Loading
  | Loading => Typing
  | Typing => Idle
  end.

Definition Phase_eqb (p q : Phase) : bool :=
  match p, q with
  | Idle, Idle | Loading, Loading | Typing, Typing => true
  | _, _ => false
  end.

(** A change of state skips no phase: the widget is in a phase before and
    after, and stays in it or moves to the one that follows. *)
Definition no_skip (before after : ArticleGenerator) : bool :=
  match phase before, phase after with
  | Some p, Some q => Phase_eqb p q || Phase_eqb (next_phase p) q
  | _, _ => false
  end.

Section Serial.

Variable World : Type.
Variable service : Request -> World -> result Response * World.

(** A run in which the user submits only while the widget is idle. *)
Fixpoint run_serial (evs : list Event) (s : System World) : option (System World) :=
  match evs with
  | [] => Some s
  | ev :: evs' =>
      match ev, phase (gui s) with
      | GenerateClicked, Some Idle
      | TitleEdited _, _ | TagsEdited _, _ | NotesEdited _, _
      | ThreadRuns _, _ | SignalDelivered, _
      | EllipsisTimeout, _ | TypingTimeout, _ =>
          match step service ev s with
          | Some s' => run_serial evs' s'
          | None => None
          end
      | GenerateClicked, _ => None
      end
  end.

End Serial.

End App.
Import App.

(* ===================================================================== *)
(** ** What the specification says, as predicates *)
(* ===================================================================== *)

Module Spec.

Definition all_space (s : str) : Prop := Forall (fun c => isspace c = true) s.

Definition no_leading_space (s : str) : Prop :=
  forall c s', s = c :: s' -> isspace c = false.

Definition no_trailing_space (s : str) : Prop :=
  forall c s', s = s' ++ [c] -> isspace c = false.

(** [pieces] is [s] split on [sep]: there is at least one piece, no piece
    holds the separator, and the pieces with one separator between each two
    are [s]. *)
Definition split_on (sep : char) (s : str) (pieces : list str) : Prop :=
  pieces <> [] /\
  Forall (fun p => ~ In sep p) pieces /\
  join [sep] pieces = s.

(** [t] is [p] with the whitespace at its two ends trimmed. *)
Definition trims_to (p t : str) : Prop :=
  exists l r,
    p = l ++ t ++ r /\ all_space l /\ all_space r /\
    no_leading_space t /\ no_trailing_space t.

(** The tag segment of the specification: split on commas, trim each tag,
    join with [", "]. *)
Definition tag_segment (tags segment : str) : Prop :=
  exists pieces trimmed,
    split_on comma tags pieces /\
    Forall2 trims_to pieces trimmed /\
    segment = join (lit ", ") trimmed.

(** What the client hands back for an answer of the service: the text
    of the first choice, trimmed; the message of the failure when the
    service raised, or when the answer has no choice to read. *)
Definition reply (answer : result Response) : str :=
  match answer with
  | Return response =>
      match choices response with
      | choice :: _ => strip (text choice)
      | [] => lit "list index out of range"
      end
  | Raise e => py_str e
  end.

(** The request of the outline call and of the article call. *)
Definition outline_request (title notes tags : str) (temperature : float) : Request :=
  mkRequest (lit "text-davinci-003")
    (lit "Title: " ++ title ++ nl ++ lit "Tags: " ++ tag_string tags ++ nl
     ++ lit "Notes: " ++ notes ++ nl ++ nl
     ++ lit "Create a detailed outline for an article based on the above information:")
    200 temperature.

Definition article_request (outline : str) (temperature : float) : Request :=
  mkRequest (lit "text-davinci-003")
    (lit "Write a detailed article based on the following outline:" ++ nl
     ++ outline ++ nl)
    800 temperature.

(** [n] timeouts of the typing timer in a row, each one needing the timer
    to be running, as the event loop has it. *)
Fixpoint typing_ticks (n : nat) (self : ArticleGenerator) : option ArticleGenerator :=
  match n with
  | 0 => Some self
  | S n' =>
      if isActive (typing_timer self)
      then match type_next_character self with
           | Some self' => typing_ticks n' self'
           | None => None
           end
      else None
  end.

(** What holds of the widget in every state the application can reach:
    the two typing attributes are assigned together, the position never
    passes the end of the text, and the typing timer does not run before
    they are assigned; while the ellipsis timer is stopped the display
    shows the part of the text typed so far, each character as it reads
    back, with the cursor at its end. *)
Definition widget_ok (self : ArticleGenerator) : Prop :=
  match full_generated_text self, current_typing_position self with
  | Some full, Some position =>
      position <= length full /\
      (isActive (ellipsis_timer self) = false ->
       toPlainText (generated_text_area self) = map shown (firstn position full) /\
       cursor_at (generated_text_area self)
       = utf16_length (document (generated_text_area self)))
  | None, None =>
      isActive (typing_timer self) = false /\
      (isActive (ellipsis_timer self) = false ->
       toPlainText (generated_text_area self) = [] /\
       cursor_at (generated_text_area self) = 0)
  | _, _ => False
  end.

(** The widget is typing [full] and has typed its first [position]
    characters: the display shows them, each as it reads back, the cursor
    is after them, and the typing timer runs. *)
Definition typing_at (full : str) (position : nat) (self : ArticleGenerator) : Prop :=
  full_generated_text self = Some full /\
  current_typing_position self = Some position /\
  toPlainText (generated_text_area self) = map shown (firstn position full) /\
  cursor_at (generated_text_area self)
  = utf16_length (document (generated_text_area self)) /\
  isActive (typing_timer self) = true.

(** What holds of the application while the user submits only when the
    widget is idle: the widget is in a phase, and one task is outstanding
    (a thread to run or a signal to deliver) while it is loading, none
    otherwise. *)
Definition one_task_at_a_time {World : Type} (s : System World) : Prop :=
  match phase (gui s) with
  | Some Loading => (length (threads s) + length (emitted (runtime s)) = 1)%nat
  | Some Idle | Some Typing => (threads s = []) /\ (emitted (runtime s) = [])
  | None => False
  end.

End Spec.
Import Spec.

(* ===================================================================== *)
(** ** Completion services to run the client against *)
(* ===================================================================== *)

Module Services.

(** A service that cannot be reached: every call raises. *)
Definition offline (req : Request) (calls : nat) : result Response * nat :=
  (Raise (mkException "APIConnectionError"
            (lit "Error communicating with OpenAI")),
   S calls).

(** A service that answers every prompt with one choice, the prompt
    itself between two blanks. *)
Definition echo (req : Request) (calls : nat) : result Response * nat :=
  (Return (mkResponse [mkChoice (lit " " ++ prompt req ++ lit " ")]), S calls).

(** A service that answers with the two letters [ab]. *)
Definition terse (req : Request) (calls : nat) : result Response * nat :=
  (Return (mkResponse [mkChoice (lit "ab")]), S calls).

(** A service that answers with [a], a no-break space and [b]. *)
Definition unbroken (req : Request) (calls : nat) : result Response * nat :=
  (Return (mkResponse [mkChoice [97%N; 160%N; 98%N]]), S calls).

End Services.
Import Services.

(* ===================================================================== *)
(** ** Counting triggers, and what the widget keeps *)
(* ===================================================================== *)

Module Traces.

Definition is_click (ev : Event) : bool :=
  match ev with GenerateClicked => true | _ => false end.

Definition is_thread_run (ev : Event) : bool :=
  match ev with ThreadRuns _ => true | _ => false end.

Definition is_delivery (ev : Event) : bool :=
  match ev with SignalDelivered => true | _ => false end.

(** How many of the triggers [evs] are of the kind [kind]. *)
Definition count (kind : Event -> bool) (evs : list Event) : nat :=
  length (filter kind evs).

(** The pieces of [", ".join(tags)] between its commas: the first tag,
    and every other tag behind the blank of the separator. *)
Definition behind_blanks (tags : list str) : list str :=
  match tags with
  | [] => []
  | t :: rest => t :: map (cons 32%N) rest
  end.

(** A string with no whitespace at either end. *)
Definition trimmed (s : str) : Prop :=
  no_leading_space s /\ no_trailing_space s.

(** The dot count is one of 0, 1, 2, 3, and a running timer runs at the
    pace its slot gave it. *)
Definition timers_ok (self : ArticleGenerator) : Prop :=
  ellipsis_count self < 4 /\
  (isActive (ellipsis_timer self) = true -> interval (ellipsis_timer self) = 500) /\
  (isActive (typing_timer self) = true -> interval (typing_timer self) = 30).

(** Once a text was delivered, the typing timer is stopped only when the
    text has been typed to its end. *)
Definition typed_out_when_stopped (self : ArticleGenerator) : Prop :=
  match full_generated_text self, current_typing_position self with
  | Some full, Some position =>
      isActive (typing_timer self) = false -> position = length full
  | _, _ => True
  end.

End Traces.
Import Traces.

(* ===================================================================== *)
(** ** Facts about the string methods *)
(* ===================================================================== *)

Section StrFacts.

Lemma split_not_nil (sep : char) (s : str) : split sep s <> [].
Proof.
  destruct s as [|c s]; simpl; [discriminate|].
  destruct (c =? sep)%N; [discriminate|].
  destruct (split sep s); discriminate.
Qed.

Lemma split_join (sep : char) (s : str) : join [sep] (split sep s) = s.
Proof.
  induction s as [|c s IH]; [reflexivity|].
  simpl split. destruct (c =? sep)%N eqn:E.
  - apply N.eqb_eq in E. subst c.
    pose proof (split_not_nil sep s) as Hn.
    destruct (split sep s) as [|p ps]; [contradiction|].
    change (join [sep] ([] :: p :: ps)) with ([] ++ [sep] ++ join [sep] (p :: ps)).
    rewrite IH. reflexivity.
  - pose proof (split_not_nil sep s) as Hn.
    destruct (split sep s) as [|p ps]; [contradiction|].
    destruct ps as [|q qs]; simpl in *; rewrite <- IH; reflexivity.
Qed.

Lemma split_no_sep (sep : char) (s : str) :
  Forall (fun p => ~ In sep p) (split sep s).
Proof.
  induction s as [|c s IH]; simpl.
  - constructor; [intros []|constructor].
  - destruct (c =? sep)%N eqn:E.
    + constructor; [intros []|exact IH].
    + apply N.eqb_neq in E.
      destruct (split sep s) as [|p ps].
      * constructor; [|constructor]. intros [H|[]]. congruence.
      * inversion IH as [|? ? Hp Hps]; subst.
        constructor; [|exact Hps].
        intros [H|H]; [congruence|contradiction].
Qed.

Lemma split_piece (sep : char) (p : str) :
  ~ In sep p -> split sep p = [p].
Proof.
  induction p as [|c p IH]; intros Hn; [reflexivity|].
  simpl. destruct (c =? sep)%N eqn:E.
  - apply N.eqb_eq in E. subst c. exfalso. apply Hn. left. reflexivity.
  - rewrite IH; [reflexivity|]. intros H. apply Hn. right. exact H.
Qed.

Lemma split_app_sep (sep : char) (p rest : str) :
  ~ In sep p -> split sep (p ++ sep :: rest) = p :: split sep rest.
Proof.
  induction p as [|c p IH]; intros Hn; simpl.
  - rewrite N.eqb_refl. reflexivity.
  - destruct (c =? sep)%N eqn:E.
    + apply N.eqb_eq in E. subst c. exfalso. apply Hn. left. reflexivity.
    + rewrite IH; [reflexivity|]. intros H. apply Hn. right. exact H.
Qed.

(** The split is the only list of pieces that [split_on] admits. *)
Lemma split_unique (sep : char) (pieces : list str) :
  pieces <> [] -> Forall (fun p => ~ In sep p) pieces ->
  split sep (join [sep] pieces) = pieces.
Proof.
  induction pieces as [|p ps IH]; intros Hn Hf; [contradiction|].
  inversion Hf as [|? ? Hp Hps]; subst.
  destruct ps as [|q qs].
  - simpl. apply split_piece. exact Hp.
  - change (join [sep] (p :: q :: qs)) with (p ++ sep :: join [sep] (q :: qs)).
    rewrite split_app_sep by exact Hp.
    rewrite IH; [reflexivity|discriminate|exact Hps].
Qed.

Lemma split_on_iff (sep : char) (s : str) (pieces : list str) :
  split_on sep s pieces <-> pieces = split sep s.
Proof.
  split.
  - intros (Hn & Hf & Hj). subst s. symmetry. apply split_unique; assumption.
  - intros ->. repeat split.
    + apply split_not_nil.
    + apply split_no_sep.
    + apply split_join.
Qed.

Lemma lstrip_spec (s : str) :
  exists l, s = l ++ lstrip s /\ all_space l /\ no_leading_space (lstrip s).
Proof.
  induction s as [|c s (l & Hs & Hl & Hn)].
  - exists []. repeat split; [constructor|]. intros c s' H. discriminate.
  - simpl. destruct (isspace c) eqn:E.
    + exists (c :: l). repeat split.
      * simpl. f_equal. exact Hs.
      * constructor; assumption.
      * exact Hn.
    + exists []. repeat split; [constructor|].
      intros c' s' H. inversion H; subst. exact E.
Qed.

Lemma all_space_rev (s : str) : all_space s -> all_space (rev s).
Proof.
  unfold all_space. rewrite !Forall_forall. intros H c Hc.
  apply H. apply in_rev. exact Hc.
Qed.

Lemma no_leading_rev (s : str) : no_leading_space s -> no_trailing_space (rev s).
Proof.
  intros H c s' E. apply (f_equal (@rev char)) in E.
  rewrite rev_involutive, rev_app_distr in E. simpl in E.
  eapply H. exact E.
Qed.

Lemma no_leading_prefix (s t : str) :
  no_leading_space (s ++ t) -> no_leading_space s.
Proof.
  intros H c s' E. subst s. eapply H. reflexivity.
Qed.

Lemma strip_spec (s : str) : trims_to s (strip s).
Proof.
  unfold strip, rstrip.
  destruct (lstrip_spec s) as (l & Hs & Hl & Hn).
  destruct (lstrip_spec (rev (lstrip s))) as (r & Hr & Hrs & Hrn).
  assert (Ht : lstrip s = rev (lstrip (rev (lstrip s))) ++ rev r).
  { rewrite <- rev_app_distr, <- Hr, rev_involutive. reflexivity. }
  exists l, (rev r). repeat split.
  - rewrite <- Ht. exact Hs.
  - exact Hl.
  - apply all_space_rev. exact Hrs.
  - apply no_leading_prefix with (t := rev r). rewrite <- Ht. exact Hn.
  - apply no_leading_rev. exact Hrn.
Qed.

Lemma no_trailing_rev (s : str) : no_trailing_space s -> no_leading_space (rev s).
Proof.
  intros H c s' E. apply (f_equal (@rev char)) in E.
  rewrite rev_involutive in E. simpl in E. eapply H. exact E.
Qed.

Lemma no_leading_app (t r : str) :
  no_leading_space t -> no_trailing_space t -> all_space r ->
  no_leading_space (t ++ r) \/ (t = [] /\ all_space (t ++ r)).
Proof.
  intros Hl Ht Hr. destruct t as [|c t].
  - right. split; [reflexivity|exact Hr].
  - left. intros c' s' E. simpl in E. inversion E; subst.
    eapply Hl. reflexivity.
Qed.

Lemma lstrip_all_space (s : str) : all_space s -> lstrip s = [].
Proof.
  induction 1 as [|c s Hc _ IH]; [reflexivity|].
  simpl. rewrite Hc. exact IH.
Qed.

Lemma lstrip_clean (l t : str) :
  all_space l -> no_leading_space t -> lstrip (l ++ t) = t.
Proof.
  induction 1 as [|c l Hc _ IH]; intros Hn; simpl.
  - destruct t as [|c t]; [reflexivity|].
    simpl. rewrite (Hn c t eq_refl). reflexivity.
  - rewrite Hc. apply IH. exact Hn.
Qed.

(** [strip] is the only trimming [trims_to] admits. *)
Lemma trims_to_iff (p t : str) : trims_to p t <-> t = strip p.
Proof.
  split.
  - intros (l & r & E & Hl & Hr & Nl & Nt). subst p.
    unfold strip, rstrip.
    destruct (no_leading_app Nl Nt Hr) as [H|[-> H]].
    + rewrite (lstrip_clean Hl H), rev_app_distr.
      rewrite (lstrip_clean (all_space_rev Hr) (no_trailing_rev Nt)).
      symmetry. apply rev_involutive.
    + assert (Ha : all_space (l ++ [] ++ r)).
      { apply Forall_app. split; assumption. }
      rewrite (lstrip_all_space Ha). reflexivity.
  - intros ->. apply strip_spec.
Qed.

Lemma Forall2_trims_to_iff (pieces trimmed : list str) :
  Forall2 trims_to pieces trimmed <-> trimmed = map strip pieces.
Proof.
  split.
  - induction 1 as [|p t ps ts Hpt _ IH]; [reflexivity|].
    simpl. apply trims_to_iff in Hpt. congruence.
  - intros ->. induction pieces; constructor; [apply strip_spec|assumption].
Qed.

(** The tag segment of the specification is the one the code computes. *)
Lemma tag_segment_iff (tags segment : str) :
  tag_segment tags segment <-> segment = tag_string tags.
Proof.
  unfold tag_segment, tag_string. split.
  - intros (pieces & trimmed & Hs & Ht & ->).
    apply split_on_iff in Hs. apply Forall2_trims_to_iff in Ht.
    subst. reflexivity.
  - intros ->. exists (split comma tags), (map strip (split comma tags)).
    repeat split.
    + apply split_not_nil.
    + apply split_no_sep.
    + apply split_join.
    + apply Forall2_trims_to_iff. reflexivity.
Qed.

End StrFacts.

(* ===================================================================== *)
(** ** The generation client *)
(* ===================================================================== *)

Section ClientFacts.

Variable World : Type.
Variable service : Request -> World -> result Response * World.

(** One call of the service, whatever it answers, and the answer handed
    back as a string. *)
Lemma generate_article_outline_run (title notes tags : str) (temp : float)
    (rt : Runtime World) :
  generate_article_outline service title notes tags temp rt =
  (Return (reply (fst (service (outline_request title notes tags temp) (world rt)))),
   mkRuntime (snd (service (outline_request title notes tags temp) (world rt)))
     (sent rt ++ [outline_request title notes tags temp]) (emitted rt) (stdout rt)).
Proof.
  unfold generate_article_outline, try_except, bind, Completion_create.
  fold (tag_string tags). fold (outline_request title notes tags temp).
  destruct (service (outline_request title notes tags temp) (world rt))
    as [[response|e] w]; simpl; [|reflexivity].
  destruct (choices response); reflexivity.
Qed.

Lemma generate_full_article_from_outline_run (outline : str) (temp : float)
    (rt : Runtime World) :
  generate_full_article_from_outline service outline temp rt =
  (Return (reply (fst (service (article_request outline temp) (world rt)))),
   mkRuntime (snd (service (article_request outline temp) (world rt)))
     (sent rt ++ [article_request outline temp]) (emitted rt) (stdout rt)).
Proof.
  unfold generate_full_article_from_outline, try_except, bind, Completion_create.
  fold (article_request outline temp).
  destruct (service (article_request outline temp) (world rt))
    as [[response|e] w]; simpl; [|reflexivity].
  destruct (choices response); reflexivity.
Qed.

(** The worker: the outline call, the article call on what the outline
    call handed back, and one signal with what the article call handed
    back. *)
Lemma call_openai_api_run (title tags notes : str) (rt : Runtime World) :
  let req1 := outline_request title notes tags default_temperature in
  let outline := reply (fst (service req1 (world rt))) in
  let req2 := article_request outline default_temperature in
  let answer2 := service req2 (snd (service req1 (world rt))) in
  call_openai_api service title tags notes rt =
  (Return tt,
   mkRuntime (snd answer2) (sent rt ++ [req1; req2])
     (emitted rt ++ [reply (fst answer2)]) (stdout rt)).
Proof.
  intros req1 outline req2 answer2.
  unfold call_openai_api, try_except, bind.
  rewrite generate_article_outline_run.
  rewrite generate_full_article_from_outline_run.
  unfold emit. simpl. rewrite <- app_assoc. reflexivity.
Qed.

End ClientFacts.

Section ClientClaims.

Variable World : Type.
Variable service : Request -> World -> result Response * World.

(** C1. Both operations of the generation client are total: whatever the
    inputs, the service and its answer, each hands back a string and never
    raises. When the call succeeds the string is the text of the answer
    with the whitespace at its two ends, and nothing else, taken off; when
    the call raises [e] it is [str(e)], for a failure of the service and for
    an answer without a choice alike. A failure and a success can hand back
    the same string, so the caller cannot tell them apart. *)
Theorem generation_client_total
    (title notes tags outline : str) (temp : float) (rt : Runtime World) :
  (exists req,
     fst (generate_article_outline service title notes tags temp rt)
     = Return (reply (fst (service req (world rt)))) /\
     sent (snd (generate_article_outline service title notes tags temp rt))
     = sent rt ++ [req]) /\
  (exists req,
     fst (generate_full_article_from_outline service outline temp rt)
     = Return (reply (fst (service req (world rt)))) /\
     sent (snd (generate_full_article_from_outline service outline temp rt))
     = sent rt ++ [req]) /\
  (forall choice others,
     reply (Return (mkResponse (choice :: others))) = strip (text choice)) /\
  (forall choice others,
     trims_to (text choice) (reply (Return (mkResponse (choice :: others))))) /\
  (forall choice others trimmed,
     trims_to (text choice) trimmed ->
     reply (Return (mkResponse (choice :: others))) = trimmed) /\
  (forall e, reply (Raise e) = py_str e) /\
  reply (Return (mkResponse [])) = py_str IndexError /\
  (forall class text,
     reply (Raise (mkException class (strip text)))
     = reply (Return (mkResponse [mkChoice text]))).
Proof.
  split.
  { exists (outline_request title notes tags temp).
    rewrite generate_article_outline_run. split; reflexivity. }
  split.
  { exists (article_request outline temp).
    rewrite generate_full_article_from_outline_run. split; reflexivity. }
  split; [reflexivity|].
  split; [intros choice others; apply strip_spec|].
  split.
  { intros choice others trimmed H. apply trims_to_iff in H.
    symmetry. exact H. }
  split; [reflexivity|]. split; reflexivity.
Qed.

(** C2. For every tags string the tag segment of the outline prompt is the
    string split on commas, each piece trimmed of the whitespace at its two
    ends, the trimmed pieces joined with [", "]; it is the only string that
    fits this description, it stands in the prompt between ["Tags: "] and
    the line break before ["Notes: "], and for ["a, b ,c"] it is
    ["a, b, c"]. *)
Theorem tag_segment_split_trim_join
    (title notes tags : str) (temp : float) (rt : Runtime World) :
  (exists pieces trimmed,
     split_on comma tags pieces /\
     Forall2 trims_to pieces trimmed /\
     exists req before after,
       sent (snd (generate_article_outline service title notes tags temp rt))
       = sent rt ++ [req] /\
       prompt req
       = before ++ lit "Tags: " ++ join (lit ", ") trimmed ++ nl
         ++ lit "Notes: " ++ after) /\
  (forall segment, tag_segment tags segment <-> segment = tag_string tags) /\
  tag_string tags = join (lit ", ") (map strip (split comma tags)) /\
  tag_string (lit "a, b ,c") = lit "a, b, c".
Proof.
  split; [|split; [|split]].
  - exists (split comma tags), (map strip (split comma tags)).
    split; [apply split_on_iff; reflexivity|].
    split; [apply Forall2_trims_to_iff; reflexivity|].
    exists (outline_request title notes tags temp), (lit "Title: " ++ title ++ nl).
    eexists. rewrite generate_article_outline_run. split; [reflexivity|].
    unfold outline_request, tag_string. simpl prompt.
    rewrite <- !app_assoc. reflexivity.
  - intros segment. apply tag_segment_iff.
  - reflexivity.
  - vm_compute. reflexivity.
Qed.

(** C3. The outline call asks for at most 200 output units and the article
    call for at most 800, and each sends exactly one request. The outline
    prompt is the literal text of the source with the title, the tag
    segment and the notes in it as they are, and the article prompt holds
    the outline as it is: nothing is cut and nothing is escaped. *)
Theorem requests_and_prompts
    (title notes tags outline : str) (temp : float) (rt : Runtime World) :
  (exists req,
     sent (snd (generate_article_outline service title notes tags temp rt))
     = sent rt ++ [req] /\
     max_tokens req = 200 /\
     temperature req = temp /\
     prompt req
     = lit "Title: " ++ title ++ nl
       ++ lit "Tags: " ++ tag_string tags ++ nl
       ++ lit "Notes: " ++ notes ++ nl ++ nl
       ++ lit "Create a detailed outline for an article based on the above information:") /\
  (exists req,
     sent (snd (generate_full_article_from_outline service outline temp rt))
     = sent rt ++ [req] /\
     max_tokens req = 800 /\
     temperature req = temp /\
     prompt req
     = lit "Write a detailed article based on the following outline:" ++ nl
       ++ outline ++ nl).
Proof.
  split.
  - exists (outline_request title notes tags temp).
    rewrite generate_article_outline_run. repeat split.
  - exists (article_request outline temp).
    rewrite generate_full_article_from_outline_run. repeat split.
Qed.

End ClientClaims.

(** The two outcomes the caller cannot tell apart, run: a service that
    answers (with its prompt between blanks, which are trimmed) and a
    service that raises both make the client hand back a plain string. *)
Example client_answers_and_failures :
  fst (generate_article_outline echo (lit "T") (lit "n") (lit "a , b")
         default_temperature (mkRuntime 0 [] [] []))
  = Return (lit "Title: T" ++ nl ++ lit "Tags: a, b" ++ nl ++ lit "Notes: n"
            ++ nl ++ nl
            ++ lit "Create a detailed outline for an article based on the above information:")
  /\
  fst (generate_article_outline offline (lit "T") (lit "n") (lit "a , b")
         default_temperature (mkRuntime 0 [] [] []))
  = Return (lit "Error communicating with OpenAI").
Proof. split; vm_compute; reflexivity. Qed.

(* ===================================================================== *)
(** ** The worker thread *)
(* ===================================================================== *)

Section WorkerClaims.

Variable World : Type.
Variable service : Request -> World -> result Response * World.

(** C4. With the title "Ocean Conservation", the tags
    "nature, water, policy" and the notes "focus on plastic pollution"
    entered and the button clicked, the prompt of the outline call holds
    "Tags: nature, water, policy". For every submission the worker sends two
    requests, and the prompt of the second is the phrase "Write a detailed
    article based on the following outline:", a line break, what
    [generate_article_outline] handed back, unchanged, and a line break. *)
Theorem outline_fed_into_article_prompt :
  (forall w : World,
     exists s req1 req2,
       run service
         [TitleEdited (lit "Ocean Conservation");
          TagsEdited (lit "nature, water, policy");
          NotesEdited (lit "focus on plastic pollution");
          GenerateClicked; ThreadRuns 0] (initial w) = Some s /\
       sent (runtime s) = [req1; req2] /\
       substring (lit "Tags: nature, water, policy") (prompt req1)) /\
  (forall (title tags notes : str) (rt : Runtime World),
     exists outline rt1 req1 req2,
       generate_article_outline service title notes tags default_temperature rt
       = (Return outline, rt1) /\
       sent (snd (call_openai_api service title tags notes rt))
       = sent rt ++ [req1; req2] /\
       prompt req2
       = lit "Write a detailed article based on the following outline:" ++ nl
         ++ outline ++ nl).
Proof.
  split.
  - intros w. unfold run, step, initial. simpl.
    rewrite call_openai_api_run. simpl.
    do 3 eexists. split; [reflexivity|]. split; [reflexivity|].
    exists (lit "Title: Ocean Conservation" ++ nl),
           (nl ++ lit "Notes: focus on plastic pollution" ++ nl ++ nl
            ++ lit "Create a detailed outline for an article based on the above information:").
    vm_compute. reflexivity.
  - intros title tags notes rt.
    rewrite generate_article_outline_run, call_openai_api_run.
    do 4 eexists. split; [reflexivity|]. split; reflexivity.
Qed.

(** C5. When the service raises [e] on the outline call,
    [generate_article_outline] hands back [str(e)], and the worker goes on:
    it calls [generate_full_article_from_outline] with that string as the
    outline, which sends its request, 800 output units asked, the error
    string in the prompt where the outline belongs, and what that call
    hands back is emitted to the GUI thread. Nothing stops the cascade. *)
Theorem outline_failure_cascades
    (title tags notes : str) (rt : Runtime World) (e : Exception) (w1 : World) :
  service (outline_request title notes tags default_temperature) (world rt)
  = (Raise e, w1) ->
  fst (generate_article_outline service title notes tags default_temperature rt)
  = Return (py_str e) /\
  exists req2,
    sent (snd (call_openai_api service title tags notes rt))
    = sent rt ++ [outline_request title notes tags default_temperature; req2] /\
    prompt req2
    = lit "Write a detailed article based on the following outline:" ++ nl
      ++ py_str e ++ nl /\
    max_tokens req2 = 800 /\
    emitted (snd (call_openai_api service title tags notes rt))
    = emitted rt ++ [reply (fst (service req2 w1))].
Proof.
  intros Hfail.
  rewrite generate_article_outline_run, call_openai_api_run, Hfail. simpl.
  split; [reflexivity|].
  eexists. repeat split.
Qed.

(** C10. Empty inputs go through unchecked. The empty tags string splits
    into one empty tag, which trims to the empty string, so the tag segment
    is empty; [generate_article_outline] on three empty strings calls the
    service with the prompt "Title: \nTags: \nNotes: \n\nCreate ..." and
    hands back its answer; and a click on the freshly started application,
    whose fields are empty, makes the worker send exactly that request,
    followed by the article request. *)
Theorem empty_inputs_accepted :
  split comma [] = [[]] /\
  map strip (split comma []) = [[]] /\
  tag_string [] = [] /\
  (forall (temp : float) (rt : Runtime World),
     exists req,
       generate_article_outline service [] [] [] temp rt
       = (Return (reply (fst (service req (world rt)))),
          mkRuntime (snd (service req (world rt))) (sent rt ++ [req])
            (emitted rt) (stdout rt)) /\
       prompt req
       = lit "Title: " ++ nl ++ lit "Tags: " ++ nl ++ lit "Notes: " ++ nl ++ nl
         ++ lit "Create a detailed outline for an article based on the above information:") /\
  (forall w : World,
     exists s req1 req2,
       run service [GenerateClicked; ThreadRuns 0] (initial w) = Some s /\
       sent (runtime s) = [req1; req2] /\
       prompt req1
       = lit "Title: " ++ nl ++ lit "Tags: " ++ nl ++ lit "Notes: " ++ nl ++ nl
         ++ lit "Create a detailed outline for an article based on the above information:").
Proof.
  split; [reflexivity|]. split; [reflexivity|]. split; [reflexivity|]. split.
  - intros temp rt. exists (outline_request [] [] [] temp).
    rewrite generate_article_outline_run. split; reflexivity.
  - intros w. unfold run, step, initial. simpl.
    rewrite call_openai_api_run. simpl.
    do 3 eexists. split; [reflexivity|]. split; reflexivity.
Qed.

End WorkerClaims.

(** The outline call fails, the article call is made all the same. *)
Lemma outline_failure_cascades_offline :
  offline (outline_request (lit "T") (lit "n") (lit "a,b") default_temperature)
    (world (mkRuntime 0 [] [] []))
  = (Raise (mkException "APIConnectionError"
              (lit "Error communicating with OpenAI")), 1) /\
  fst (generate_article_outline offline (lit "T") (lit "n") (lit "a,b")
         default_temperature (mkRuntime 0 [] [] []))
  = Return (lit "Error communicating with OpenAI") /\
  exists req2,
    sent (snd (call_openai_api offline (lit "T") (lit "a,b") (lit "n")
                 (mkRuntime 0 [] [] [])))
    = [] ++ [outline_request (lit "T") (lit "n") (lit "a,b") default_temperature; req2] /\
    prompt req2
    = lit "Write a detailed article based on the following outline:" ++ nl
      ++ lit "Error communicating with OpenAI" ++ nl /\
    max_tokens req2 = 800 /\
    emitted (snd (call_openai_api offline (lit "T") (lit "a,b") (lit "n")
                    (mkRuntime 0 [] [] [])))
    = [] ++ [reply (fst (offline req2 1))].
Proof.
  split; [reflexivity|].
  exact (@outline_failure_cascades nat offline (lit "T") (lit "a,b") (lit "n")
           (mkRuntime 0 [] [] [])
           (mkException "APIConnectionError"
              (lit "Error communicating with OpenAI")) 1 eq_refl).
Defined.

(* ===================================================================== *)
(** ** The interactive shell: what every reachable state satisfies *)
(* ===================================================================== *)

Section DisplayFacts.

Lemma firstn_snoc (full : str) (position : nat) (c : char) :
  nth_error full position = Some c ->
  firstn (position + 1) full = firstn position full ++ [c].
Proof.
  revert position. induction full as [|a full IH]; intros [|position] H;
    simpl in *; try discriminate.
  - inversion H. reflexivity.
  - f_equal. apply IH. exact H.
Qed.

Lemma stored_single (c : char) :
  stored [c] = [if breaks_paragraph c then paragraph_separator else c].
Proof.
  simpl. destruct (c =? 13)%N eqn:E.
  - apply N.eqb_eq in E. subst c. reflexivity.
  - destruct (breaks_paragraph c); reflexivity.
Qed.

(** A text without a character that starts a paragraph is held as it is. *)
Lemma stored_app_unbroken (a b : str) :
  Forall (fun c => breaks_paragraph c = false) a ->
  stored (a ++ b) = a ++ stored b.
Proof.
  induction 1 as [|c a Hc _ IH]; [reflexivity|].
  simpl. rewrite Hc.
  assert (E : (c =? 13)%N = false).
  { unfold breaks_paragraph in Hc. apply orb_false_iff in Hc.
    destruct Hc as [Hc _]. apply orb_false_iff in Hc. destruct Hc as [Hc _].
    apply orb_false_iff in Hc. destruct Hc as [Hc _].
    apply orb_false_iff in Hc. destruct Hc as [_ Hc]. exact Hc. }
  rewrite E, IH. reflexivity.
Qed.

(** The captions of the loading animation read back as they are set. *)
Lemma caption_reads_back (n : nat) (b : QTextBrowser) :
  toPlainText (setText (lit "Generating article" ++ times period n) b)
  = lit "Generating article" ++ times period n.
Proof.
  unfold toPlainText, setText. cbn [document].
  rewrite stored_app_unbroken
    by (repeat constructor).
  rewrite map_app. f_equal.
  unfold times. induction n as [|n IH]; [reflexivity|].
  simpl repeat.
  change (stored (period :: repeat period n)) with (period :: stored (repeat period n)).
  simpl map. f_equal. exact IH.
Qed.

Lemma before_from_position (n : nat) (doc : str) :
  before_position n doc ++ from_position n doc = doc.
Proof.
  revert n. induction doc as [|c doc IH]; intros n; [reflexivity|].
  simpl. destruct (utf16_units c <=? n); [|reflexivity].
  simpl. rewrite IH. reflexivity.
Qed.

Lemma position_at_end (doc : str) :
  before_position (utf16_length doc) doc = doc /\
  from_position (utf16_length doc) doc = [].
Proof.
  induction doc as [|c doc [IH1 IH2]]; [split; reflexivity|].
  simpl.
  assert (E : (utf16_units c <=? utf16_units c + utf16_length doc) = true).
  { apply Nat.leb_le. lia. }
  rewrite E.
  replace (utf16_units c + utf16_length doc - utf16_units c)
    with (utf16_length doc) by lia.
  rewrite IH1, IH2. split; reflexivity.
Qed.

Lemma utf16_length_app (a b : str) :
  utf16_length (a ++ b) = utf16_length a + utf16_length b.
Proof. induction a as [|c a IH]; simpl; [reflexivity|rewrite IH; lia]. Qed.

(** With the cursor at the end of the document, a character inserted is
    a character appended, reads back as [shown], and leaves the cursor at
    the end. *)
Lemma insertPlainText_at_end (c : char) (b : QTextBrowser) :
  cursor_at b = utf16_length (document b) ->
  toPlainText (insertPlainText [c] b) = toPlainText b ++ [shown c] /\
  cursor_at (insertPlainText [c] b)
  = utf16_length (document (insertPlainText [c] b)).
Proof.
  intros H. unfold toPlainText, insertPlainText. cbn [document cursor_at].
  rewrite stored_single, H.
  destruct (position_at_end (document b)) as [-> ->].
  rewrite app_nil_r, map_app, utf16_length_app. split; reflexivity.
Qed.

(** Wherever the cursor is, a character inserted makes the display one
    character longer. *)
Lemma insertPlainText_length (c : char) (b : QTextBrowser) :
  length (toPlainText (insertPlainText [c] b)) = length (toPlainText b) + 1.
Proof.
  unfold toPlainText, insertPlainText. cbn [document].
  rewrite stored_single, !length_map, !length_app.
  rewrite <- (before_from_position (cursor_at b) (document b)) at 3.
  rewrite length_app. simpl. lia.
Qed.

(** Wherever the cursor is, a character inserted reads back between what
    was on display before the cursor and what was on display after it. *)
Lemma insertPlainText_at_cursor (c : char) (b : QTextBrowser) :
  exists before after,
    toPlainText b = before ++ after /\
    toPlainText (insertPlainText [c] b) = before ++ [shown c] ++ after.
Proof.
  exists (map read_back (before_position (cursor_at b) (document b))),
         (map read_back (from_position (cursor_at b) (document b))).
  unfold toPlainText, insertPlainText. cbn [document].
  rewrite stored_single. split.
  - rewrite <- map_app, before_from_position. reflexivity.
  - rewrite !map_app. reflexivity.
Qed.

(** What a character inserted on its own reads back as: a line feed for
    the six characters that break a line, a blank for the no-break space,
    itself otherwise. *)
Lemma shown_cases (c : char) :
  shown c
  = if ((c =? 10) || (c =? 13) || (c =? 8232) || (c =? 8233)
        || (c =? 64976) || (c =? 64977))%N then 10%N
    else if (c =? 160)%N then 32%N
    else c.
Proof.
  unfold shown, breaks_paragraph, read_back, paragraph_separator.
  destruct (N.eqb_spec c 10) as [->|H1]; [reflexivity|].
  destruct (N.eqb_spec c 13) as [->|H2]; [reflexivity|].
  destruct (N.eqb_spec c 8233) as [->|H3]; [reflexivity|].
  destruct (N.eqb_spec c 64976) as [->|H4]; [reflexivity|].
  destruct (N.eqb_spec c 64977) as [->|H5]; [reflexivity|].
  simpl.
  apply N.eqb_neq in H3, H4, H5. rewrite H3, H4, H5.
  destruct (c =? 8232)%N; reflexivity.
Qed.

(** A text whose characters all read back as themselves. *)
Lemma map_shown_unchanged (text : str) :
  Forall (fun c => shown c = c) text -> map shown text = text.
Proof.
  induction 1 as [|c text Hc _ IH]; [reflexivity|].
  simpl. rewrite Hc, IH. reflexivity.
Qed.

Lemma nth_error_in_range (full : str) (position : nat) :
  position < length full -> exists c, nth_error full position = Some c.
Proof.
  intros H. destruct (nth_error full position) as [c|] eqn:E.
  - exists c. reflexivity.
  - apply nth_error_None in E. lia.
Qed.

(** One typing tick before the end of the text. *)
Lemma type_next_character_types (self : ArticleGenerator) (full : str)
    (position : nat) (c : char) :
  full_generated_text self = Some full ->
  current_typing_position self = Some position ->
  nth_error full position = Some c ->
  type_next_character self
  = Some (set_current_typing_position (position + 1)
            (set_generated_text_area
               (insertPlainText [c] (generated_text_area self)) self)).
Proof.
  intros Hf Hp Hc. unfold type_next_character. rewrite Hf, Hp, Hc.
  assert (H : position < length full) by (apply nth_error_Some; congruence).
  apply Nat.ltb_lt in H. rewrite H. reflexivity.
Qed.

(** One typing tick at the end of the text. *)
Lemma type_next_character_stops (self : ArticleGenerator) (full : str)
    (position : nat) :
  full_generated_text self = Some full ->
  current_typing_position self = Some position ->
  length full <= position ->
  type_next_character self
  = Some (set_typing_timer (stop (typing_timer self)) self).
Proof.
  intros Hf Hp Hle. unfold type_next_character. rewrite Hf, Hp.
  apply Nat.ltb_ge in Hle. rewrite Hle. reflexivity.
Qed.

Lemma widget_ok_new : widget_ok ArticleGenerator_new.
Proof. unfold widget_ok. simpl. auto. Qed.

Lemma widget_ok_generate_article (self : ArticleGenerator) :
  widget_ok self -> widget_ok (fst (generate_article self)).
Proof.
  unfold widget_ok. simpl.
  destruct (full_generated_text self), (current_typing_position self);
    try tauto.
  - intros [H _]. split; [exact H|discriminate].
  - intros [H _]. split; [exact H|discriminate].
Qed.

Lemma widget_ok_update_gui (text : str) (self : ArticleGenerator) :
  widget_ok (update_gui_with_generated_article text self).
Proof. unfold widget_ok. simpl. split; [lia|auto]. Qed.

Lemma widget_ok_update_ellipsis (self : ArticleGenerator) :
  isActive (ellipsis_timer self) = true ->
  widget_ok self -> widget_ok (update_ellipsis self).
Proof.
  unfold widget_ok. simpl. intros Ha. rewrite Ha.
  destruct (full_generated_text self), (current_typing_position self);
    try tauto.
  - intros [H _]. split; [exact H|discriminate].
  - intros [H _]. split; [exact H|discriminate].
Qed.

Lemma widget_ok_type_next_character (self self' : ArticleGenerator) :
  widget_ok self -> type_next_character self = Some self' -> widget_ok self'.
Proof.
  unfold widget_ok.
  destruct (full_generated_text self) as [full|] eqn:Hf;
    destruct (current_typing_position self) as [position|] eqn:Hp;
    try tauto.
  - intros [Hle Hd] Ht.
    destruct (Nat.lt_ge_cases position (length full)) as [Hlt|Hge].
    + destruct (nth_error_in_range full Hlt) as [c Hc].
      rewrite (type_next_character_types self Hf Hp Hc) in Ht.
      inversion Ht; subst self'; clear Ht.
      cbn [set_current_typing_position set_generated_text_area
           full_generated_text current_typing_position ellipsis_timer
           generated_text_area].
      rewrite Hf. split; [lia|]. intros He. destruct (Hd He) as [Hdoc Hcur].
      destruct (insertPlainText_at_end c _ Hcur) as [Hdoc' Hcur'].
      rewrite Hdoc', Hdoc, (firstn_snoc _ _ Hc), map_app.
      split; [reflexivity|exact Hcur'].
    + rewrite (type_next_character_stops self Hf Hp Hge) in Ht.
      inversion Ht; subst self'; clear Ht. simpl. rewrite Hf, Hp.
      split; assumption.
  - intros _ Ht. unfold type_next_character in Ht. rewrite Hp in Ht.
    discriminate.
Qed.

End DisplayFacts.

Section ShellFacts.

Variable World : Type.
Variable service : Request -> World -> result Response * World.

Lemma step_widget_ok (ev : Event) (s s' : System World) :
  widget_ok (gui s) -> step service ev s = Some s' -> widget_ok (gui s').
Proof.
  intros Hok Hstep. destruct ev; simpl in Hstep.
  - inversion Hstep; subst. exact Hok.
  - inversion Hstep; subst. exact Hok.
  - inversion Hstep; subst. exact Hok.
  - inversion Hstep; subst. apply widget_ok_generate_article. exact Hok.
  - destruct (nth_error (threads s) i) as [[[title tags] notes]|]; [|discriminate].
    destruct (call_openai_api service title tags notes (runtime s)).
    inversion Hstep; subst. exact Hok.
  - destruct (emitted (runtime s)); [discriminate|].
    inversion Hstep; subst. apply widget_ok_update_gui.
  - destruct (isActive (ellipsis_timer (gui s))) eqn:Ha; [|discriminate].
    inversion Hstep; subst. apply widget_ok_update_ellipsis; assumption.
  - destruct (isActive (typing_timer (gui s))); [|discriminate].
    destruct (type_next_character (gui s)) as [g|] eqn:Ht; [|discriminate].
    inversion Hstep; subst. eapply widget_ok_type_next_character; eassumption.
Qed.

Lemma run_widget_ok (evs : list Event) (s s' : System World) :
  widget_ok (gui s) -> run service evs s = Some s' -> widget_ok (gui s').
Proof.
  revert s. induction evs as [|ev evs IH]; intros s Hok Hrun; simpl in Hrun.
  - inversion Hrun; subst. exact Hok.
  - destruct (step service ev s) as [s1|] eqn:Hstep; [|discriminate].
    apply (IH s1); [|exact Hrun]. eapply step_widget_ok; eassumption.
Qed.

(** Every state the application reaches from its start. *)
Lemma reachable_widget_ok (w : World) (evs : list Event) (s : System World) :
  run service evs (initial w) = Some s -> widget_ok (gui s).
Proof. apply run_widget_ok. apply widget_ok_new. Qed.

(** Until a signal is delivered, a stopped typing timer stays stopped: no
    typing tick can happen, and the typing attributes keep their values. *)
Lemma typing_timer_stays_stopped (evs : list Event) (s s' : System World) :
  isActive (typing_timer (gui s)) = false ->
  ~ In SignalDelivered evs ->
  run service evs s = Some s' ->
  isActive (typing_timer (gui s')) = false /\
  current_typing_position (gui s') = current_typing_position (gui s) /\
  full_generated_text (gui s') = full_generated_text (gui s) /\
  ~ In TypingTimeout evs.
Proof.
  revert s. induction evs as [|ev evs IH]; intros s Hoff Hno Hrun; simpl in Hrun.
  - inversion Hrun; subst. repeat split; auto.
  - destruct (step service ev s) as [s1|] eqn:Hstep; [|discriminate].
    assert (H1 : isActive (typing_timer (gui s1)) = false /\
                 current_typing_position (gui s1) = current_typing_position (gui s) /\
                 full_generated_text (gui s1) = full_generated_text (gui s) /\
                 ev <> TypingTimeout).
    { destruct ev; simpl in Hstep.
      - inversion Hstep; subst. repeat split; auto; discriminate.
      - inversion Hstep; subst. repeat split; auto; discriminate.
      - inversion Hstep; subst. repeat split; auto; discriminate.
      - inversion Hstep; subst. repeat split; auto; discriminate.
      - destruct (nth_error (threads s) i) as [[[title tags] notes]|]; [|discriminate].
        destruct (call_openai_api service title tags notes (runtime s)).
        inversion Hstep; subst. repeat split; auto; discriminate.
      - exfalso. apply Hno. left. reflexivity.
      - destruct (isActive (ellipsis_timer (gui s))); [|discriminate].
        inversion Hstep; subst. repeat split; auto; discriminate.
      - rewrite Hoff in Hstep. discriminate. }
    destruct H1 as (Hoff1 & Hp1 & Hf1 & Hev).
    destruct (IH s1 Hoff1) as (Ha & Hb & Hc & Hd); [|exact Hrun|].
    + intros Hin. apply Hno. right. exact Hin.
    + repeat split; try congruence.
      intros [Heq|Hin]; [exact (Hev Heq)|exact (Hd Hin)].
Qed.

End ShellFacts.

(* ===================================================================== *)
(** ** The interactive shell: one submission at a time *)
(* ===================================================================== *)

Section SerialFacts.

Variable World : Type.
Variable service : Request -> World -> result Response * World.

(** A typing tick leaves the ellipsis timer alone and either leaves the
    typing timer alone or stops it. *)
Lemma type_next_character_timers (self self' : ArticleGenerator) :
  type_next_character self = Some self' ->
  ellipsis_timer self' = ellipsis_timer self /\
  (typing_timer self' = typing_timer self \/
   typing_timer self' = stop (typing_timer self)).
Proof.
  unfold type_next_character.
  destruct (current_typing_position self) as [position|]; [|discriminate].
  destruct (full_generated_text self) as [full|]; [|discriminate].
  destruct (position <? length full).
  - destruct (nth_error full position); [|discriminate].
    intros H. inversion H. simpl. auto.
  - intros H. inversion H. simpl. auto.
Qed.

Lemma nth_error_singleton {A} (x y : A) (i : nat) :
  nth_error [x] i = Some y -> i = 0.
Proof.
  destruct i as [|i]; [reflexivity|]. simpl. destruct i; discriminate.
Qed.

Lemma length_one_left {A B} (l : list A) (m : list B) (x : A) (l' : list A) :
  l = x :: l' -> length l + length m = 1 -> l' = [] /\ m = [].
Proof.
  intros -> H. simpl in H.
  destruct l'; destruct m; simpl in H; try lia. auto.
Qed.

Lemma length_one_right {A B} (l : list A) (m : list B) (y : B) (m' : list B) :
  m = y :: m' -> length l + length m = 1 -> l = [] /\ m' = [].
Proof.
  intros -> H. simpl in H. rewrite Nat.add_comm in H. simpl in H.
  destruct l; destruct m'; simpl in H; try lia. auto.
Qed.

(** One trigger of a serial run keeps one task at a time, and moves the
    widget to the next phase, which only the trigger of that phase does,
    or leaves it in its phase. *)
Lemma serial_step (ev : Event) (s s' : System World) :
  one_task_at_a_time s ->
  (ev = GenerateClicked -> phase (gui s) = Some Idle) ->
  step service ev s = Some s' ->
  one_task_at_a_time s' /\
  exists p q,
    phase (gui s) = Some p /\ phase (gui s') = Some q /\
    (q = p \/
     q = next_phase p /\
     ev = match p with
          | Idle => GenerateClicked
          | Loading => SignalDelivered
          | Typing => TypingTimeout
          end).
Proof.
  intros Hone Hclick Hstep.
  unfold one_task_at_a_time in *.
  destruct ev; simpl in Hstep.
  - inversion Hstep; subst; clear Hstep. cbn [gui threads runtime emitted]. split; [exact Hone|].
    change (phase (set_title_entry s0 (gui s))) with (phase (gui s)).
    destruct (phase (gui s)) as [p|]; [|contradiction]. exists p, p. auto.
  - inversion Hstep; subst; clear Hstep. cbn [gui threads runtime emitted]. split; [exact Hone|].
    change (phase (set_tags_entry s0 (gui s))) with (phase (gui s)).
    destruct (phase (gui s)) as [p|]; [|contradiction]. exists p, p. auto.
  - inversion Hstep; subst; clear Hstep. cbn [gui threads runtime emitted]. split; [exact Hone|].
    change (phase (set_notes_entry s0 (gui s))) with (phase (gui s)).
    destruct (phase (gui s)) as [p|]; [|contradiction]. exists p, p. auto.
  - inversion Hstep; subst; clear Hstep. cbn [gui threads runtime emitted].
    specialize (Hclick eq_refl). rewrite Hclick in Hone.
    destruct Hone as [Ht He].
    assert (Hq : phase (set_ellipsis_timer (start 500 (ellipsis_timer (gui s))) (gui s))
                 = Some Loading).
    { unfold phase in *. simpl.
      destruct (isActive (ellipsis_timer (gui s))),
               (isActive (typing_timer (gui s))); congruence. }
    rewrite Hq, Ht, He. split; [reflexivity|].
    exists Idle, Loading. auto.
  - destruct (nth_error (threads s) i) as [[[title tags] notes]|] eqn:Hn;
      [|discriminate].
    rewrite call_openai_api_run in Hstep.
    inversion Hstep; subst; clear Hstep. cbn [gui threads runtime emitted].
    destruct (phase (gui s)) as [[| |]|] eqn:Hp; try contradiction.
    + destruct Hone as [Ht _]. rewrite Ht in Hn. destruct i; discriminate.
    + destruct (threads s) as [|x l'] eqn:Ht; [destruct i; discriminate|].
      destruct (@length_one_left _ _ (x :: l') (emitted (runtime s)) x l'
                  eq_refl Hone) as [-> He].
      apply nth_error_singleton in Hn. subst i. rewrite He. simpl.
      split; [reflexivity|]. exists Loading, Loading. auto.
    + destruct Hone as [Ht _]. rewrite Ht in Hn. destruct i; discriminate.
  - destruct (emitted (runtime s)) as [|text waiting] eqn:He; [discriminate|].
    inversion Hstep; subst; clear Hstep. cbn [gui threads runtime emitted].
    assert (Hq : phase (update_gui_with_generated_article text (gui s))
                 = Some Typing) by reflexivity.
    rewrite Hq.
    destruct (phase (gui s)) as [[| |]|] eqn:Hp; try contradiction.
    + destruct Hone as [_ H]. discriminate.
    + destruct (@length_one_right _ _ (threads s) (text :: waiting) text waiting
                  eq_refl Hone) as [Ht ->].
      split; [auto|]. exists Loading, Typing. auto.
    + destruct Hone as [_ H]. discriminate.
  - destruct (isActive (ellipsis_timer (gui s))) eqn:Ha; [|discriminate].
    inversion Hstep; subst; clear Hstep. cbn [gui threads runtime emitted].
    change (phase (update_ellipsis (gui s))) with (phase (gui s)).
    split; [exact Hone|].
    destruct (phase (gui s)) as [p|]; [|contradiction]. exists p, p. auto.
  - destruct (isActive (typing_timer (gui s))) eqn:Ha; [|discriminate].
    destruct (type_next_character (gui s)) as [g|] eqn:Ht; [|discriminate].
    inversion Hstep; subst; clear Hstep. cbn [gui threads runtime emitted].
    destruct (type_next_character_timers _ Ht) as [He Hty].
    assert (Hp : phase (gui s) = Some Typing).
    { unfold phase in *. rewrite Ha in *.
      destruct (isActive (ellipsis_timer (gui s))); [contradiction|reflexivity]. }
    rewrite Hp in Hone.
    assert (Hq : phase g = Some Typing \/ phase g = Some Idle).
    { unfold phase in *. rewrite He.
      destruct (isActive (ellipsis_timer (gui s))); [rewrite Ha in Hp; discriminate|].
      destruct Hty as [-> | ->]; [left; rewrite Ha; reflexivity|right; reflexivity]. }
    destruct Hq as [Hq|Hq]; rewrite Hq.
    + split; [exact Hone|]. exists Typing, Typing. auto.
    + split; [exact Hone|]. exists Typing, Idle. auto.
Qed.

Lemma run_serial_cons (ev : Event) (evs : list Event) (s s' : System World) :
  run_serial service (ev :: evs) s = Some s' ->
  exists s1,
    step service ev s = Some s1 /\
    (ev = GenerateClicked -> phase (gui s) = Some Idle) /\
    run_serial service evs s1 = Some s'.
Proof.
  simpl.
  destruct ev;
    try (destruct (step service _ s) as [s1|] eqn:Hstep; [|discriminate];
         intros H; exists s1; repeat split; try exact H; discriminate).
  destruct (phase (gui s)) as [[| |]|]; try discriminate.
  destruct (step service GenerateClicked s) as [s1|] eqn:Hstep; [|discriminate].
  intros H. exists s1. repeat split; exact H.
Qed.

Lemma run_serial_one_task (evs : list Event) (s s' : System World) :
  one_task_at_a_time s -> run_serial service evs s = Some s' ->
  one_task_at_a_time s'.
Proof.
  revert s. induction evs as [|ev evs IH]; intros s Hone Hrun.
  - simpl in Hrun. inversion Hrun; subst. exact Hone.
  - apply run_serial_cons in Hrun. destruct Hrun as (s1 & Hstep & Hclick & Hrun).
    apply (IH s1); [|exact Hrun].
    edestruct serial_step as [H _]; [exact Hone|exact Hclick|exact Hstep|exact H].
Qed.

Lemma one_task_initial (w : World) : one_task_at_a_time (initial w).
Proof. unfold one_task_at_a_time. simpl. auto. Qed.

End SerialFacts.

(* ===================================================================== *)
(** ** The interactive shell: the two animations *)
(* ===================================================================== *)

Section AnimationFacts.

Lemma typing_at_delivery (text : str) (self : ArticleGenerator) :
  typing_at text 0 (update_gui_with_generated_article text self).
Proof. unfold typing_at. simpl. auto. Qed.

Lemma typing_at_tick (full : str) (position : nat) (self : ArticleGenerator) :
  typing_at full position self -> position < length full ->
  exists self',
    type_next_character self = Some self' /\
    typing_at full (position + 1) self' /\
    ellipsis_timer self' = ellipsis_timer self.
Proof.
  intros (Hf & Hp & Hdoc & Hcur & Hact) Hlt.
  destruct (nth_error_in_range full Hlt) as [c Hc].
  eexists. split; [apply (type_next_character_types self Hf Hp Hc)|].
  destruct (insertPlainText_at_end c _ Hcur) as [Hdoc' Hcur'].
  unfold typing_at.
  cbn [set_current_typing_position set_generated_text_area
       full_generated_text current_typing_position ellipsis_timer
       typing_timer generated_text_area].
  rewrite Hdoc', Hdoc, (firstn_snoc _ _ Hc), map_app.
  repeat split; auto.
Qed.

Lemma typing_at_ticks (full : str) (k position : nat) (self : ArticleGenerator) :
  typing_at full position self -> position + k <= length full ->
  exists self',
    typing_ticks k self = Some self' /\
    typing_at full (position + k) self' /\
    ellipsis_timer self' = ellipsis_timer self.
Proof.
  revert position self. induction k as [|k IH]; intros position self Hat Hle.
  - exists self. rewrite Nat.add_0_r. simpl. auto.
  - destruct (typing_at_tick Hat) as (self1 & Ht & Hat1 & He1); [lia|].
    destruct (IH (position + 1) self1 Hat1) as (self' & Hk & Hat' & He'); [lia|].
    exists self'. simpl.
    destruct Hat as (_ & _ & _ & _ & Hact). rewrite Hact, Ht.
    split; [exact Hk|].
    replace (position + S k) with (position + 1 + k) by lia.
    split; [exact Hat'|congruence].
Qed.

Lemma caption_dots (a b : nat) :
  lit "Generating article" ++ times period a
  = lit "Generating article" ++ times period b ->
  a = b.
Proof.
  intros H. apply app_inv_head in H. apply (f_equal (@length char)) in H.
  unfold times in H. rewrite !repeat_length in H. exact H.
Qed.

Lemma next_dot_count_differs (c : nat) : c < 4 -> (c + 1) mod 4 <> c.
Proof.
  intros H. destruct c as [|[|[|[|c]]]]; simpl; try discriminate. lia.
Qed.

Lemma ellipsis_count_iter (n : nat) (self : ArticleGenerator) :
  ellipsis_count (Nat.iter (S n) update_ellipsis self)
  = (ellipsis_count self + S n) mod 4.
Proof.
  induction n as [|n IH].
  - reflexivity.
  - change (Nat.iter (S (S n)) update_ellipsis self)
      with (update_ellipsis (Nat.iter (S n) update_ellipsis self)).
    change (ellipsis_count (update_ellipsis (Nat.iter (S n) update_ellipsis self)))
      with ((ellipsis_count (Nat.iter (S n) update_ellipsis self) + 1) mod 4).
    rewrite IH, Nat.Div0.add_mod_idemp_l. f_equal. lia.
Qed.

End AnimationFacts.

Section ShellClaims.

Variable World : Type.
Variable service : Request -> World -> result Response * World.

(** X7. Whatever else is going on, a second submission and its loading
    animation included: while the typing timer runs, a typing tick can
    happen; before the end of the text it adds one to the position and one
    character to the display, at the end it stops the timer. *)
Lemma typing_position_monotonic
    (w : World) (evs : list Event) (s : System World) :
  run service evs (initial w) = Some s ->
  isActive (typing_timer (gui s)) = true ->
  exists full position s',
    full_generated_text (gui s) = Some full /\
    current_typing_position (gui s) = Some position /\
    position <= length full /\
    step service TypingTimeout s = Some s' /\
    (position < length full ->
     current_typing_position (gui s') = Some (position + 1) /\
     length (toPlainText (generated_text_area (gui s')))
     = length (toPlainText (generated_text_area (gui s))) + 1 /\
     isActive (typing_timer (gui s')) = true) /\
    (position = length full ->
     current_typing_position (gui s') = Some position /\
     isActive (typing_timer (gui s')) = false).
Proof.
  intros Hrun Hty.
  pose proof (reachable_widget_ok service w evs Hrun) as Hok.
  unfold widget_ok in Hok.
  destruct (full_generated_text (gui s)) as [full|] eqn:Hf;
    destruct (current_typing_position (gui s)) as [position|] eqn:Hp;
    try contradiction.
  2: { destruct Hok as [Hoff _]. congruence. }
  destruct Hok as [Hle _].
  destruct (Nat.lt_ge_cases position (length full)) as [Hlt|Hge].
  - destruct (nth_error_in_range full Hlt) as [c Hc].
    pose proof (type_next_character_types (gui s) Hf Hp Hc) as Ht.
    eexists full, position, (mkSystem _ (threads s) (runtime s)).
    split; [reflexivity|]. split; [reflexivity|]. split; [exact Hle|].
    split; [simpl; rewrite Hty, Ht; reflexivity|]. split.
    + intros _. split; [reflexivity|]. split; [|exact Hty].
      cbn [gui set_current_typing_position set_generated_text_area
           generated_text_area].
      apply insertPlainText_length.
    + intros Heq. lia.
  - pose proof (type_next_character_stops (gui s) Hf Hp Hge) as Ht.
    eexists full, position, (mkSystem _ (threads s) (runtime s)).
    split; [reflexivity|]. split; [reflexivity|]. split; [exact Hle|].
    split; [simpl; rewrite Hty, Ht; reflexivity|]. split.
    + intros Hlt. lia.
    + intros _. split; [exact Hp|reflexivity].
Qed.

(** C6, for every typing tick of every run. In every state the
    application can reach in which the typing timer runs, a typing tick can
    happen. While [position] is less than the length of the full text the
    tick adds exactly one to [position] and puts exactly one character on
    the display, where the text cursor is, the rest of the display staying
    as it is: the next character of the text, as the widget reads it back
    ([shown]). In the typing phase, where no loading
    animation runs beside it, the display is the first [position]
    characters of the text so read, and the new character is appended to
    it. Once [position] equals the length the tick stops the typing timer
    and adds nothing; the timer then stays stopped, and no typing tick
    happens, for as long as no new result is delivered. *)
Theorem typing_reveal_monotonic
    (w : World) (evs : list Event) (s : System World) :
  run service evs (initial w) = Some s ->
  isActive (typing_timer (gui s)) = true ->
  exists full position s',
    full_generated_text (gui s) = Some full /\
    current_typing_position (gui s) = Some position /\
    position <= length full /\
    step service TypingTimeout s = Some s' /\
    full_generated_text (gui s') = Some full /\
    (position < length full ->
     exists c,
       nth_error full position = Some c /\
       current_typing_position (gui s') = Some (position + 1) /\
       isActive (typing_timer (gui s')) = true /\
       (exists before after,
          toPlainText (generated_text_area (gui s)) = before ++ after /\
          toPlainText (generated_text_area (gui s'))
          = before ++ [shown c] ++ after) /\
       (phase (gui s) = Some Typing ->
        toPlainText (generated_text_area (gui s))
        = map shown (firstn position full) /\
        toPlainText (generated_text_area (gui s'))
        = toPlainText (generated_text_area (gui s)) ++ [shown c] /\
        phase (gui s') = Some Typing)) /\
    (position = length full ->
     toPlainText (generated_text_area (gui s'))
     = toPlainText (generated_text_area (gui s)) /\
     current_typing_position (gui s') = Some position /\
     isActive (typing_timer (gui s')) = false /\
     forall evs' s'',
       ~ In SignalDelivered evs' ->
       run service evs' s' = Some s'' ->
       isActive (typing_timer (gui s'')) = false /\
       current_typing_position (gui s'') = Some position /\
       ~ In TypingTimeout evs').
Proof.
  intros Hrun Hty.
  pose proof (reachable_widget_ok service w evs Hrun) as Hok.
  unfold widget_ok in Hok.
  destruct (full_generated_text (gui s)) as [full|] eqn:Hf;
    destruct (current_typing_position (gui s)) as [position|] eqn:Hp;
    try contradiction.
  2: { destruct Hok as [Hoff _]. congruence. }
  destruct Hok as [Hle Hshown].
  destruct (Nat.lt_ge_cases position (length full)) as [Hlt|Hge].
  - destruct (nth_error_in_range full Hlt) as [c Hc].
    pose proof (type_next_character_types (gui s) Hf Hp Hc) as Ht.
    eexists full, position, (mkSystem _ (threads s) (runtime s)).
    split; [reflexivity|]. split; [reflexivity|]. split; [exact Hle|].
    split; [simpl; rewrite Hty, Ht; reflexivity|].
    split; [exact Hf|]. split.
    + intros _. exists c.
      cbn [gui set_current_typing_position set_generated_text_area
           generated_text_area current_typing_position typing_timer].
      split; [exact Hc|]. split; [reflexivity|]. split; [exact Hty|].
      split; [apply insertPlainText_at_cursor|].
      intros Hphase.
      assert (Hell : isActive (ellipsis_timer (gui s)) = false).
      { unfold phase in Hphase.
        destruct (isActive (ellipsis_timer (gui s))); [|reflexivity].
        destruct (isActive (typing_timer (gui s))); discriminate. }
      destruct (Hshown Hell) as [Hdoc Hcur].
      destruct (insertPlainText_at_end c _ Hcur) as [Hdoc' _].
      split; [exact Hdoc|]. split; [exact Hdoc'|].
      unfold phase. simpl. rewrite Hell, Hty. reflexivity.
    + intros Heq. lia.
  - pose proof (type_next_character_stops (gui s) Hf Hp Hge) as Ht.
    eexists full, position, (mkSystem _ (threads s) (runtime s)).
    split; [reflexivity|]. split; [reflexivity|]. split; [exact Hle|].
    split; [simpl; rewrite Hty, Ht; reflexivity|].
    split; [exact Hf|]. split.
    + intros Hlt. lia.
    + intros _. split; [reflexivity|]. split; [exact Hp|].
      split; [reflexivity|].
      intros evs' s'' Hno Hrun'.
      edestruct typing_timer_stays_stopped as (Ha & Hb & _ & Hd);
        [|exact Hno|exact Hrun'|].
      * reflexivity.
      * split; [exact Ha|]. split; [rewrite Hb; exact Hp|exact Hd].
Qed.

(** C7, for serial submissions. While the user submits only when the widget is idle,
    the animation never skips a phase: whatever the triggers so far and
    whatever the next one, the widget is in a phase before and after it, and
    either stays in its phase or moves from Idle to Loading (on the click),
    from Loading to Typing (on the delivery of the result) or from Typing
    to Idle (on a typing tick). *)
Theorem phases_in_order_when_serial
    (w : World) (evs : list Event) (ev : Event) (s s' : System World) :
  run_serial service evs (initial w) = Some s ->
  run_serial service [ev] s = Some s' ->
  no_skip (gui s) (gui s') = true /\
  exists p q,
    phase (gui s) = Some p /\ phase (gui s') = Some q /\
    (q = p \/
     q = next_phase p /\
     ev = match p with
          | Idle => GenerateClicked
          | Loading => SignalDelivered
          | Typing => TypingTimeout
          end).
Proof.
  intros Hrun Hnext.
  assert (Hone : one_task_at_a_time s).
  { eapply run_serial_one_task; [apply one_task_initial|exact Hrun]. }
  apply run_serial_cons in Hnext.
  destruct Hnext as (s1 & Hstep & Hclick & Hnil).
  simpl in Hnil. inversion Hnil; subst s1; clear Hnil.
  edestruct serial_step as (_ & p & q & Hp & Hq & Hpq);
    [exact Hone|exact Hclick|exact Hstep|].
  split.
  - unfold no_skip. rewrite Hp, Hq.
    destruct Hpq as [->|[-> _]]; destruct p; reflexivity.
  - exists p, q. auto.
Qed.

(** C8. Each tick of the loading animation sets the dot count to
    [(dot_count + 1) mod 4] and shows "Generating article" followed by that
    many periods. So the count after [n + 1] ticks is the count at the
    start plus [n + 1], modulo 4: from the start of the application it
    runs 1, 2, 3, 0, 1, 2, 3, 0; and the next render, from any state of the
    widget that kept the count, differs from this one. *)
Theorem loading_caption_cycles (self : ArticleGenerator) :
  ellipsis_count (update_ellipsis self) = (ellipsis_count self + 1) mod 4 /\
  ellipsis_count (update_ellipsis self) < 4 /\
  toPlainText (generated_text_area (update_ellipsis self))
  = lit "Generating article"
    ++ times period (ellipsis_count (update_ellipsis self)) /\
  (forall n,
     ellipsis_count (Nat.iter (S n) update_ellipsis self)
     = (ellipsis_count self + S n) mod 4) /\
  map (fun n => ellipsis_count (Nat.iter n update_ellipsis ArticleGenerator_new))
    [0; 1; 2; 3; 4; 5; 6; 7; 8]
  = [0; 1; 2; 3; 0; 1; 2; 3; 0] /\
  (forall later,
     ellipsis_count later = ellipsis_count (update_ellipsis self) ->
     toPlainText (generated_text_area (update_ellipsis later))
     <> toPlainText (generated_text_area (update_ellipsis self))) /\
  (forall (s : System World),
     isActive (ellipsis_timer (gui s)) = true ->
     step service EllipsisTimeout s
     = Some (mkSystem (update_ellipsis (gui s)) (threads s) (runtime s))).
Proof.
  assert (Hlt : ellipsis_count (update_ellipsis self) < 4).
  { change (ellipsis_count (update_ellipsis self))
      with ((ellipsis_count self + 1) mod 4).
    apply Nat.mod_upper_bound. discriminate. }
  assert (Hrender : forall g,
             toPlainText (generated_text_area (update_ellipsis g))
             = lit "Generating article"
               ++ times period (ellipsis_count (update_ellipsis g))).
  { intros g. apply caption_reads_back. }
  split; [reflexivity|]. split; [exact Hlt|]. split; [apply Hrender|].
  split; [intros n; apply ellipsis_count_iter|]. split; [reflexivity|]. split.
  - intros later Hkept Hsame.
    rewrite !Hrender in Hsame.
    apply caption_dots in Hsame.
    change (ellipsis_count (update_ellipsis later))
      with ((ellipsis_count later + 1) mod 4) in Hsame.
    rewrite Hkept in Hsame.
    exact (next_dot_count_differs Hlt Hsame).
  - intros s Hact. simpl. rewrite Hact. reflexivity.
Qed.

(** C9. Whatever text is delivered, an error message and the empty string
    included, and whatever the state of the widget, the slot stops the
    ellipsis timer, empties the display, stores the text as the full text,
    puts the typing position at 0 and starts the typing timer (every 30
    ms). The typing ticks that follow type the delivered text from its
    first character: after [k] of them the position is [k] and the display
    is its first [k] characters, each as the widget reads it back, which is
    the character itself but for the carriage return, the no-break space
    and the Unicode separators. The event loop calls the slot with the
    oldest waiting signal. *)
Theorem delivery_starts_typing_afresh (text : str) (self : ArticleGenerator) :
  isActive (ellipsis_timer (update_gui_with_generated_article text self)) = false /\
  toPlainText (generated_text_area (update_gui_with_generated_article text self)) = [] /\
  full_generated_text (update_gui_with_generated_article text self) = Some text /\
  current_typing_position (update_gui_with_generated_article text self) = Some 0 /\
  typing_timer (update_gui_with_generated_article text self) = mkQTimer true 30 /\
  (forall k, k <= length text ->
     exists typed,
       typing_ticks k (update_gui_with_generated_article text self) = Some typed /\
       full_generated_text typed = Some text /\
       current_typing_position typed = Some k /\
       toPlainText (generated_text_area typed) = map shown (firstn k text) /\
       (Forall (fun c => shown c = c) text ->
        toPlainText (generated_text_area typed) = firstn k text)) /\
  (forall (s : System World) waiting,
     emitted (runtime s) = text :: waiting ->
     exists s',
       step service SignalDelivered s = Some s' /\
       gui s' = update_gui_with_generated_article text (gui s) /\
       emitted (runtime s') = waiting).
Proof.
  split; [reflexivity|]. split; [reflexivity|]. split; [reflexivity|].
  split; [reflexivity|]. split; [reflexivity|]. split.
  - intros k Hk.
    destruct (@typing_at_ticks text k 0 _ (typing_at_delivery text self))
      as (typed & Ht & (Hf & Hp & Hdoc & _) & _); [simpl; exact Hk|].
    simpl in Hp, Hdoc.
    exists typed. split; [exact Ht|]. split; [exact Hf|]. split; [exact Hp|].
    split; [exact Hdoc|].
    intros Hplain. rewrite Hdoc. apply map_shown_unchanged.
    apply Forall_forall. intros c Hc.
    rewrite Forall_forall in Hplain. apply Hplain.
    rewrite <- (firstn_skipn k text). apply in_or_app. left. exact Hc.
  - intros s waiting He. simpl. rewrite He. eexists. repeat split.
Qed.

End ShellClaims.

(** The typing phase of a run against the service that answers "ab": one
    submission, its result delivered, the first letter typed. *)
Lemma typing_reveal_monotonic_terse :
  exists s,
    run terse [GenerateClicked; ThreadRuns 0; SignalDelivered; TypingTimeout]
      (initial 0) = Some s /\
    isActive (typing_timer (gui s)) = true /\
    exists full position s',
      full_generated_text (gui s) = Some full /\
      current_typing_position (gui s) = Some position /\
      position <= length full /\
      step terse TypingTimeout s = Some s' /\
      full_generated_text (gui s') = Some full /\
      (position < length full ->
       exists c,
         nth_error full position = Some c /\
         current_typing_position (gui s') = Some (position + 1) /\
         isActive (typing_timer (gui s')) = true /\
         (exists before after,
            toPlainText (generated_text_area (gui s)) = before ++ after /\
            toPlainText (generated_text_area (gui s'))
            = before ++ [shown c] ++ after) /\
         (phase (gui s) = Some Typing ->
          toPlainText (generated_text_area (gui s))
          = map shown (firstn position full) /\
          toPlainText (generated_text_area (gui s'))
          = toPlainText (generated_text_area (gui s)) ++ [shown c] /\
          phase (gui s') = Some Typing)) /\
      (position = length full ->
       toPlainText (generated_text_area (gui s'))
       = toPlainText (generated_text_area (gui s)) /\
       current_typing_position (gui s') = Some position /\
       isActive (typing_timer (gui s')) = false /\
       forall evs' s'',
         ~ In SignalDelivered evs' ->
         run terse evs' s' = Some s'' ->
         isActive (typing_timer (gui s'')) = false /\
         current_typing_position (gui s'') = Some position /\
         ~ In TypingTimeout evs').
Proof.
  let r := eval vm_compute in
    (run terse [GenerateClicked; ThreadRuns 0; SignalDelivered; TypingTimeout]
       (initial 0)) in
  match r with Some ?s => exists s end.
  split; [vm_compute; reflexivity|]. split; [vm_compute; reflexivity|].
  apply (@typing_reveal_monotonic nat terse 0
           [GenerateClicked; ThreadRuns 0; SignalDelivered; TypingTimeout]);
    vm_compute; reflexivity.
Defined.

(** C6 does not hold of every typing tick, nor of every text. A second
    submission made while "ab" is being typed starts the loading animation,
    whose caption replaces the display and leaves the cursor at its start:
    the next typing tick puts [b] in front of the caption, not after it.
    And of the answer [a], no-break space, [b], typed in the typing phase,
    the second tick appends a blank, which is not a character of the
    text. *)
Lemma typing_tick_not_an_append :
  (exists s s',
     run terse
       [GenerateClicked; ThreadRuns 0; SignalDelivered; TypingTimeout;
        GenerateClicked; EllipsisTimeout] (initial 0) = Some s /\
     isActive (typing_timer (gui s)) = true /\
     full_generated_text (gui s) = Some (lit "ab") /\
     current_typing_position (gui s) = Some 1 /\
     toPlainText (generated_text_area (gui s)) = lit "Generating article." /\
     step terse TypingTimeout s = Some s' /\
     toPlainText (generated_text_area (gui s')) = lit "bGenerating article." /\
     toPlainText (generated_text_area (gui s)) ++ lit "b"
     = lit "Generating article.b") /\
  (exists s s',
     run unbroken [GenerateClicked; ThreadRuns 0; SignalDelivered; TypingTimeout]
       (initial 0) = Some s /\
     phase (gui s) = Some Typing /\
     full_generated_text (gui s) = Some [97%N; 160%N; 98%N] /\
     current_typing_position (gui s) = Some 1 /\
     toPlainText (generated_text_area (gui s)) = lit "a" /\
     step unbroken TypingTimeout s = Some s' /\
     toPlainText (generated_text_area (gui s')) = lit "a ").
Proof.
  split.
  - let r := eval vm_compute in
      (run terse
         [GenerateClicked; ThreadRuns 0; SignalDelivered; TypingTimeout;
          GenerateClicked; EllipsisTimeout] (initial 0)) in
    match r with
    | Some ?s =>
        exists s;
        let r' := eval vm_compute in (step terse TypingTimeout s) in
        match r' with Some ?s' => exists s' end
    end.
    repeat split; vm_compute; reflexivity.
  - let r := eval vm_compute in
      (run unbroken [GenerateClicked; ThreadRuns 0; SignalDelivered; TypingTimeout]
         (initial 0)) in
    match r with
    | Some ?s =>
        exists s;
        let r' := eval vm_compute in (step unbroken TypingTimeout s) in
        match r' with Some ?s' => exists s' end
    end.
    repeat split; vm_compute; reflexivity.
Qed.

(** C7 does not hold of overlapping submissions. The user clicks twice before any
    result arrives; both workers finish; the first result is delivered and
    typed to its end, so the widget is idle; then the second result is
    delivered, and the widget goes from Idle straight to Typing. *)
Lemma late_result_skips_loading :
  exists s s',
    run terse
      [GenerateClicked; GenerateClicked; ThreadRuns 0; ThreadRuns 0;
       SignalDelivered; TypingTimeout; TypingTimeout; TypingTimeout]
      (initial 0) = Some s /\
    step terse SignalDelivered s = Some s' /\
    phase (gui s) = Some Idle /\
    phase (gui s') = Some Typing /\
    no_skip (gui s) (gui s') = false.
Proof.
  let r := eval vm_compute in
    (run terse
       [GenerateClicked; GenerateClicked; ThreadRuns 0; ThreadRuns 0;
        SignalDelivered; TypingTimeout; TypingTimeout; TypingTimeout]
       (initial 0)) in
  match r with
  | Some ?s =>
      exists s;
      let r' := eval vm_compute in (step terse SignalDelivered s) in
      match r' with Some ?s' => exists s' end
  end.
  repeat split; vm_compute; reflexivity.
Qed.

(** One submission against the service that answers "ab": the delivery
    of its result moves the widget from Loading to Typing. *)
Lemma phases_in_order_when_serial_terse :
  exists s s',
    run_serial terse [GenerateClicked; EllipsisTimeout; ThreadRuns 0] (initial 0)
    = Some s /\
    run_serial terse [SignalDelivered] s = Some s' /\
    no_skip (gui s) (gui s') = true /\
    exists p q,
      phase (gui s) = Some p /\ phase (gui s') = Some q /\
      (q = p \/
       q = next_phase p /\
       SignalDelivered
       = match p with
         | Idle => GenerateClicked
         | Loading => SignalDelivered
         | Typing => TypingTimeout
         end).
Proof.
  let r := eval vm_compute in
    (run_serial terse [GenerateClicked; EllipsisTimeout; ThreadRuns 0] (initial 0)) in
  match r with
  | Some ?s =>
      exists s;
      let r' := eval vm_compute in (run_serial terse [SignalDelivered] s) in
      match r' with Some ?s' => exists s' end
  end.
  split; [vm_compute; reflexivity|]. split; [vm_compute; reflexivity|].
  apply (@phases_in_order_when_serial nat terse 0
           [GenerateClicked; EllipsisTimeout; ThreadRuns 0] SignalDelivered);
    vm_compute; reflexivity.
Defined.

(* ===================================================================== *)
(** ** More about the tag segment *)
(* ===================================================================== *)

Unset Implicit Arguments.

Section TagSegmentFacts.

Lemma strip_trimmed (s : str) : trimmed (strip s).
Proof.
  destruct (strip_spec s) as (l & r & _ & _ & _ & Hl & Ht). split; assumption.
Qed.

Lemma strip_of_trimmed (t : str) : trimmed t -> strip t = t.
Proof.
  intros [Hl Ht]. symmetry. apply trims_to_iff.
  exists [], []. rewrite app_nil_r. repeat split; try constructor; assumption.
Qed.

Lemma strip_behind_blank (t : str) : trimmed t -> strip (32%N :: t) = t.
Proof.
  intros [Hl Ht]. symmetry. apply trims_to_iff.
  exists [32%N], []. rewrite app_nil_r.
  repeat split; try assumption; repeat constructor.
Qed.

Lemma strip_keeps_out (c : char) (s : str) : ~ In c s -> ~ In c (strip s).
Proof.
  intros Hn Hin. destruct (strip_spec s) as (l & r & Hs & _).
  apply Hn. rewrite Hs. apply in_or_app. right. apply in_or_app. left. exact Hin.
Qed.

Lemma split_behind_blank (s : str) :
  split comma (32%N :: s)
  = match split comma s with
    | p :: ps => (32%N :: p) :: ps
    | [] => [[32%N]]
    end.
Proof. reflexivity. Qed.

(** Splitting a joined list of tags that hold no comma. *)
Lemma split_joined_tags (tags : list str) :
  tags <> [] -> Forall (fun t => ~ In comma t) tags ->
  split comma (join (lit ", ") tags) = behind_blanks tags.
Proof.
  induction tags as [|t rest IH]; intros Hne Hfree; [contradiction|].
  inversion Hfree as [|? ? Ht Hrest]; subst.
  destruct rest as [|t' rest].
  - simpl. apply split_piece. exact Ht.
  - change (join (lit ", ") (t :: t' :: rest))
      with (t ++ comma :: 32%N :: join (lit ", ") (t' :: rest)).
    rewrite split_app_sep by exact Ht. rewrite split_behind_blank.
    rewrite IH; [reflexivity|discriminate|exact Hrest].
Qed.

Lemma strip_behind_blanks (tags : list str) :
  Forall trimmed tags -> map strip (behind_blanks tags) = tags.
Proof.
  intros H. destruct H as [|t rest Ht Hrest]; [reflexivity|].
  simpl. rewrite (strip_of_trimmed t Ht). f_equal.
  induction Hrest as [|t' rest' Ht' _ IH]; [reflexivity|].
  simpl. rewrite (strip_behind_blank t' Ht'), IH. reflexivity.
Qed.

Lemma length_behind_blanks (tags : list str) :
  length (behind_blanks tags) = length tags.
Proof. destruct tags; simpl; [|rewrite length_map]; reflexivity. Qed.

(** The tags of the segment are the tags of the input, trimmed. *)
Lemma split_tag_string (tags : str) :
  split comma (tag_string tags) = behind_blanks (map strip (split comma tags)).
Proof.
  unfold tag_string. apply split_joined_tags.
  - pose proof (split_not_nil comma tags) as Hn.
    destruct (split comma tags); [contradiction|discriminate].
  - apply Forall_map. eapply Forall_impl; [|apply split_no_sep].
    intros p Hp. apply strip_keeps_out. exact Hp.
Qed.

Lemma trimmed_tags (tags : str) :
  Forall trimmed (map strip (split comma tags)).
Proof. apply Forall_map. apply Forall_forall. intros p _. apply strip_trimmed. Qed.

End TagSegmentFacts.

(** X1. Normalising the tags a second time changes nothing: the tag
    segment of a tag segment is that segment. *)
Theorem tag_string_idempotent (tags : str) :
  tag_string (tag_string tags) = tag_string tags.
Proof.
  unfold tag_string at 1. rewrite split_tag_string.
  rewrite (strip_behind_blanks _ (trimmed_tags tags)). reflexivity.
Qed.

(** X2. The segment keeps every tag of the input, in order, the empty ones
    too: split on commas it has as many tags as the input, they are the
    input's tags trimmed, and none of them has whitespace left at an end
    once the blank of the separator is taken off. *)
Theorem tag_string_keeps_tags (tags : str) :
  length (split comma (tag_string tags)) = length (split comma tags) /\
  map strip (split comma (tag_string tags)) = map strip (split comma tags) /\
  Forall trimmed (map strip (split comma (tag_string tags))).
Proof.
  rewrite split_tag_string.
  rewrite (strip_behind_blanks _ (trimmed_tags tags)).
  rewrite length_behind_blanks, length_map.
  split; [reflexivity|]. split; [reflexivity|]. apply trimmed_tags.
Qed.

(* ===================================================================== *)
(** ** More about the client and the worker *)
(* ===================================================================== *)

Section WorkerExtras.

Variable World : Type.
Variable service : Request -> World -> result Response * World.

(** X3. Whatever the service does, the worker returns normally, sends
    exactly two requests (the outline request, then the article request),
    emits exactly one signal and prints nothing: the handler of its own
    [try] is never entered. *)
Theorem worker_emits_exactly_once (title tags notes : str) (rt : Runtime World) :
  exists article rt' req1 req2,
    call_openai_api service title tags notes rt = (Return tt, rt') /\
    emitted rt' = emitted rt ++ [article] /\
    stdout rt' = stdout rt /\
    sent rt' = sent rt ++ [req1; req2] /\
    max_tokens req1 = 200 /\ max_tokens req2 = 800.
Proof.
  rewrite call_openai_api_run.
  do 4 eexists. split; [reflexivity|]. simpl. repeat split.
Qed.

(** X4. The prompt does not tell where the title ends and the notes
    begin. A submission whose notes go on with a line "Tags: ..." and a line
    "Notes: ..." and a submission whose title holds the first tags and notes
    lines send the same prompt, though their titles differ. *)
Theorem outline_prompt_ambiguous
    (title notes1 notes2 tags1 tags2 : str) (temp : float) (rt : Runtime World) :
  let long_title :=
    title ++ nl ++ lit "Tags: " ++ tag_string tags1 ++ nl
    ++ lit "Notes: " ++ notes1 in
  let long_notes :=
    notes1 ++ nl ++ lit "Tags: " ++ tag_string tags2 ++ nl
    ++ lit "Notes: " ++ notes2 in
  exists req_a req_b,
    sent (snd (generate_article_outline service title long_notes tags1 temp rt))
    = sent rt ++ [req_a] /\
    sent (snd (generate_article_outline service long_title notes2 tags2 temp rt))
    = sent rt ++ [req_b] /\
    prompt req_a = prompt req_b /\
    title <> long_title.
Proof.
  intros long_title long_notes.
  rewrite !generate_article_outline_run.
  do 2 eexists. split; [reflexivity|]. split; [reflexivity|]. split.
  - unfold outline_request, long_title, long_notes. cbn [prompt].
    rewrite <- !app_assoc. reflexivity.
  - intros Heq. apply (f_equal (@length char)) in Heq.
    unfold long_title in Heq. rewrite !length_app in Heq. simpl in Heq. lia.
Qed.

End WorkerExtras.

(* ===================================================================== *)
(** ** More about the interactive shell *)
(* ===================================================================== *)

Section ShellExtraFacts.

Variable World : Type.
Variable service : Request -> World -> result Response * World.

Lemma run_app (evs1 evs2 : list Event) (s : System World) :
  run service (evs1 ++ evs2) s
  = match run service evs1 s with
    | Some s1 => run service evs2 s1
    | None => None
    end.
Proof.
  revert s. induction evs1 as [|ev evs1 IH]; intros s; [reflexivity|].
  simpl. destruct (step service ev s) as [s1|]; [apply IH|reflexivity].
Qed.

Lemma run_cons (ev : Event) (evs : list Event) (s : System World) :
  run service (ev :: evs) s
  = match step service ev s with
    | Some s1 => run service evs s1
    | None => None
    end.
Proof. reflexivity. Qed.

(** A typing tick touches the display, the position and the typing timer
    only. *)
Lemma type_next_character_frame (self self' : ArticleGenerator) :
  type_next_character self = Some self' ->
  ellipsis_count self' = ellipsis_count self /\
  ellipsis_timer self' = ellipsis_timer self /\
  full_generated_text self' = full_generated_text self /\
  (typing_timer self' = typing_timer self \/
   typing_timer self' = stop (typing_timer self) /\
   current_typing_position self' = current_typing_position self /\
   exists full position,
     full_generated_text self = Some full /\
     current_typing_position self = Some position /\
     length full <= position).
Proof.
  unfold type_next_character.
  destruct (current_typing_position self) as [position|] eqn:Hp; [|discriminate].
  destruct (full_generated_text self) as [full|] eqn:Hf; [|discriminate].
  destruct (position <? length full) eqn:Hlt.
  - destruct (nth_error full position); [|discriminate].
    intros H. inversion H. simpl. auto.
  - intros H. inversion H. simpl. rewrite Hp. apply Nat.ltb_ge in Hlt.
    repeat split; auto. right. repeat split. exists full, position. auto.
Qed.

Lemma step_timers_ok (ev : Event) (s s' : System World) :
  timers_ok (gui s) -> step service ev s = Some s' -> timers_ok (gui s').
Proof.
  intros (Hc & He & Ht) Hstep. destruct ev; simpl in Hstep.
  - inversion Hstep; subst. exact (conj Hc (conj He Ht)).
  - inversion Hstep; subst. exact (conj Hc (conj He Ht)).
  - inversion Hstep; subst. exact (conj Hc (conj He Ht)).
  - inversion Hstep; subst. split; [exact Hc|]. split; [reflexivity|exact Ht].
  - destruct (nth_error (threads s) i) as [[[title tags] notes]|]; [|discriminate].
    destruct (call_openai_api service title tags notes (runtime s)).
    inversion Hstep; subst. exact (conj Hc (conj He Ht)).
  - destruct (emitted (runtime s)); [discriminate|].
    inversion Hstep; subst. split; [exact Hc|]. split; [discriminate|reflexivity].
  - destruct (isActive (ellipsis_timer (gui s))) eqn:Ha; [|discriminate].
    inversion Hstep; subst.
    split; [apply Nat.mod_upper_bound; discriminate|].
    split; [intros _; apply He; reflexivity|exact Ht].
  - destruct (isActive (typing_timer (gui s))) eqn:Ha; [|discriminate].
    destruct (type_next_character (gui s)) as [g|] eqn:Hn; [|discriminate].
    inversion Hstep; subst. simpl.
    destruct (type_next_character_frame _ _ Hn) as (Hc' & He' & _ & Hty).
    unfold timers_ok. rewrite Hc', He'.
    split; [exact Hc|]. split; [exact He|].
    destruct Hty as [->|[-> _]]; [intros _; apply Ht; reflexivity|simpl; discriminate].
Qed.

Lemma step_typed_out (ev : Event) (s s' : System World) :
  widget_ok (gui s) -> typed_out_when_stopped (gui s) ->
  step service ev s = Some s' -> typed_out_when_stopped (gui s').
Proof.
  intros Hok Hout Hstep. destruct ev; simpl in Hstep.
  - inversion Hstep; subst. exact Hout.
  - inversion Hstep; subst. exact Hout.
  - inversion Hstep; subst. exact Hout.
  - inversion Hstep; subst. exact Hout.
  - destruct (nth_error (threads s) i) as [[[title tags] notes]|]; [|discriminate].
    destruct (call_openai_api service title tags notes (runtime s)).
    inversion Hstep; subst. exact Hout.
  - destruct (emitted (runtime s)); [discriminate|].
    inversion Hstep; subst. unfold typed_out_when_stopped. simpl. discriminate.
  - destruct (isActive (ellipsis_timer (gui s))); [|discriminate].
    inversion Hstep; subst. exact Hout.
  - destruct (isActive (typing_timer (gui s))) eqn:Ha; [|discriminate].
    destruct (type_next_character (gui s)) as [g|] eqn:Hn; [|discriminate].
    inversion Hstep; subst. simpl.
    destruct (type_next_character_frame _ _ Hn) as (_ & _ & Hf & Hty).
    unfold typed_out_when_stopped. rewrite Hf.
    destruct Hty as [Hsame|(_ & Hp & full & position & Hfull & Hpos & Hge)].
    + destruct (full_generated_text (gui s)); [|exact I].
      destruct (current_typing_position g); [|exact I].
      rewrite Hsame, Ha. discriminate.
    + rewrite Hp, Hfull, Hpos. intros _.
      unfold widget_ok in Hok. rewrite Hfull, Hpos in Hok.
      destruct Hok as [Hle _]. lia.
Qed.

Lemma run_invariants (evs : list Event) (s s' : System World) :
  widget_ok (gui s) -> typed_out_when_stopped (gui s) -> timers_ok (gui s) ->
  run service evs s = Some s' ->
  widget_ok (gui s') /\ typed_out_when_stopped (gui s') /\ timers_ok (gui s').
Proof.
  revert s. induction evs as [|ev evs IH]; intros s Hok Hout Htm Hrun;
    simpl in Hrun.
  - inversion Hrun; subst. auto.
  - destruct (step service ev s) as [s1|] eqn:Hstep; [|discriminate].
    apply (IH s1); [| | |exact Hrun].
    + eapply step_widget_ok; eassumption.
    + eapply step_typed_out; eassumption.
    + eapply step_timers_ok; eassumption.
Qed.

Lemma initial_invariants (w : World) :
  widget_ok (gui (initial w)) /\
  typed_out_when_stopped (gui (initial w)) /\
  timers_ok (gui (initial w)).
Proof.
  split; [apply widget_ok_new|]. split; [exact I|].
  unfold timers_ok. simpl. repeat split; try discriminate. lia.
Qed.

(** [n] ellipsis ticks in a row, while the timer runs. *)
Lemma run_ellipsis_ticks (n : nat) (s : System World) :
  isActive (ellipsis_timer (gui s)) = true ->
  run service (repeat EllipsisTimeout n) s
  = Some (mkSystem (Nat.iter n update_ellipsis (gui s)) (threads s) (runtime s)).
Proof.
  revert s. induction n as [|n IH]; intros s Ha.
  - destruct s. reflexivity.
  - simpl repeat. simpl run. rewrite Ha. rewrite IH by exact Ha.
    simpl. f_equal. f_equal.
    clear. induction n as [|n IHn]; [reflexivity|].
    simpl. rewrite <- IHn. reflexivity.
Qed.

Lemma iter_update_ellipsis_frame (n : nat) (self : ArticleGenerator) :
  ellipsis_timer (Nat.iter n update_ellipsis self) = ellipsis_timer self /\
  typing_timer (Nat.iter n update_ellipsis self) = typing_timer self.
Proof. induction n as [|n [IH1 IH2]]; simpl; auto. Qed.

(** Typing ticks in a row are the ticks of the event loop. *)
Lemma run_typing_ticks (k : nat) (s : System World) :
  run service (repeat TypingTimeout k) s
  = match typing_ticks k (gui s) with
    | Some g => Some (mkSystem g (threads s) (runtime s))
    | None => None
    end.
Proof.
  revert s. induction k as [|k IH]; intros s.
  - destruct s. reflexivity.
  - simpl repeat. simpl run. simpl typing_ticks.
    destruct (isActive (typing_timer (gui s))); [|reflexivity].
    destruct (type_next_character (gui s)) as [g|]; [|reflexivity].
    rewrite IH. reflexivity.
Qed.

Lemma typing_ticks_add (j k : nat) (self : ArticleGenerator) :
  typing_ticks (j + k) self
  = match typing_ticks j self with
    | Some self' => typing_ticks k self'
    | None => None
    end.
Proof.
  revert self. induction j as [|j IH]; intros self; [reflexivity|].
  simpl. destruct (isActive (typing_timer self)); [|reflexivity].
  destruct (type_next_character self); [apply IH|reflexivity].
Qed.

(** From the delivery of [text]: as many ticks as it has characters type
    it, each character as it reads back, one more stops the timer, and then
    no tick can happen. *)
Lemma typing_to_the_end (text : str) (self : ArticleGenerator) :
  exists final,
    typing_ticks (length text + 1) (update_gui_with_generated_article text self)
    = Some final /\
    toPlainText (generated_text_area final) = map shown text /\
    current_typing_position final = Some (length text) /\
    full_generated_text final = Some text /\
    isActive (typing_timer final) = false /\
    isActive (ellipsis_timer final) = false /\
    typing_ticks 1 final = None.
Proof.
  destruct (@typing_at_ticks text (length text) 0 _ (typing_at_delivery text self))
    as (typed & Hk & (Hf & Hp & Hdoc & Hcur & Hact) & He); [simpl; lia|].
  simpl in Hp, Hdoc, He.
  exists (set_typing_timer (stop (typing_timer typed)) typed).
  rewrite typing_ticks_add, Hk. simpl typing_ticks. rewrite Hact.
  rewrite (@type_next_character_stops typed text (length text) Hf Hp (le_n _)).
  split; [reflexivity|]. simpl.
  rewrite Hdoc, firstn_all, He. repeat split; auto.
Qed.

End ShellExtraFacts.

Section ShellExtras.

Variable World : Type.
Variable service : Request -> World -> result Response * World.

(** X5. In every state the application can reach, the dot count is one of
    0, 1, 2, 3, a running ellipsis timer fires every 500 ms and a running
    typing timer every 30 ms. *)
Theorem dot_count_and_paces (w : World) (evs : list Event) (s : System World) :
  run service evs (initial w) = Some s ->
  ellipsis_count (gui s) < 4 /\
  (isActive (ellipsis_timer (gui s)) = true ->
   interval (ellipsis_timer (gui s)) = 500) /\
  (isActive (typing_timer (gui s)) = true ->
   interval (typing_timer (gui s)) = 30).
Proof.
  intros Hrun.
  destruct (initial_invariants World w) as (Hok & Hout & Htm).
  destruct (run_invariants World service evs _ _ Hok Hout Htm Hrun) as (_ & _ & H).
  exact H.
Qed.

(** X6. Only the delivery of a result ends the loading animation and
    starts the typing animation: through any triggers with no delivery
    among them, a running ellipsis timer keeps running and a stopped typing
    timer stays stopped. *)
Theorem animations_switch_only_on_delivery
    (evs : list Event) (s s' : System World) :
  count is_delivery evs = 0 ->
  run service evs s = Some s' ->
  (isActive (ellipsis_timer (gui s)) = true ->
   isActive (ellipsis_timer (gui s')) = true) /\
  (isActive (typing_timer (gui s)) = false ->
   isActive (typing_timer (gui s')) = false).
Proof.
  revert s. induction evs as [|ev evs IH]; intros s Hno Hrun; simpl in Hrun.
  - inversion Hrun; subst. auto.
  - destruct (step service ev s) as [s1|] eqn:Hstep; [|discriminate].
    assert (Hev : is_delivery ev = false /\ count is_delivery evs = 0).
    { unfold count in *. simpl in Hno.
      destruct (is_delivery ev); [discriminate|auto]. }
    destruct Hev as [Hev Hno'].
    destruct (IH s1 Hno' Hrun) as [IHe IHt].
    assert (H1 : (isActive (ellipsis_timer (gui s)) = true ->
                  isActive (ellipsis_timer (gui s1)) = true) /\
                 (isActive (typing_timer (gui s)) = false ->
                  isActive (typing_timer (gui s1)) = false)).
    { destruct ev; simpl in Hstep; try discriminate Hev.
      - inversion Hstep; subst. auto.
      - inversion Hstep; subst. auto.
      - inversion Hstep; subst. auto.
      - inversion Hstep; subst. auto.
      - destruct (nth_error (threads s) i) as [[[title tags] notes]|]; [|discriminate].
        destruct (call_openai_api service title tags notes (runtime s)).
        inversion Hstep; subst. auto.
      - destruct (isActive (ellipsis_timer (gui s))) eqn:Ha; [|discriminate].
        inversion Hstep; subst. simpl. auto.
      - destruct (isActive (typing_timer (gui s))) eqn:Ha; [|discriminate].
        destruct (type_next_character (gui s)) as [g|] eqn:Hn; [|discriminate].
        inversion Hstep; subst. simpl.
        destruct (type_next_character_frame _ _ Hn) as (_ & He & _).
        rewrite He. split; [auto|discriminate]. }
    destruct H1 as [H1e H1t]. auto.
Qed.

(** X8. Whenever the application is idle, its display shows nothing, no
    result having been delivered yet and no caption rendered since, or
    the whole of the text delivered last, each character as the widget
    reads it back: the text itself when it holds no carriage return,
    no-break space or Unicode separator. *)
Theorem idle_display_is_complete (w : World) (evs : list Event) (s : System World) :
  run service evs (initial w) = Some s ->
  phase (gui s) = Some Idle ->
  (full_generated_text (gui s) = None /\
   toPlainText (generated_text_area (gui s)) = []) \/
  (exists full,
     full_generated_text (gui s) = Some full /\
     current_typing_position (gui s) = Some (length full) /\
     toPlainText (generated_text_area (gui s)) = map shown full /\
     (Forall (fun c => shown c = c) full ->
      toPlainText (generated_text_area (gui s)) = full)).
Proof.
  intros Hrun Hphase.
  destruct (initial_invariants World w) as (Hok0 & Hout0 & Htm0).
  destruct (run_invariants World service evs _ _ Hok0 Hout0 Htm0 Hrun)
    as (Hok & Hout & _).
  assert (Htimers : isActive (ellipsis_timer (gui s)) = false /\
                    isActive (typing_timer (gui s)) = false).
  { unfold phase in Hphase.
    destruct (isActive (ellipsis_timer (gui s))),
             (isActive (typing_timer (gui s))); try discriminate; auto. }
  destruct Htimers as [Hell Hty].
  unfold widget_ok in Hok. unfold typed_out_when_stopped in Hout.
  destruct (full_generated_text (gui s)) as [full|];
    destruct (current_typing_position (gui s)) as [position|];
    try contradiction.
  - right. exists full. destruct Hok as [_ Hshown].
    destruct (Hshown Hell) as [Hdoc _]. rewrite (Hout Hty) in *.
    rewrite firstn_all in Hdoc.
    split; [reflexivity|]. split; [reflexivity|]. split; [exact Hdoc|].
    intros Hplain. rewrite Hdoc. apply map_shown_unchanged. exact Hplain.
  - left. destruct Hok as [_ Hshown]. destruct (Hshown Hell) as [Hdoc _]. auto.
Qed.

(** X9. Typing runs to the end. From the delivery of a text, whatever the
    state before, one tick for each character and one more leave the whole
    text on display, each character as the widget reads it back (the text
    itself when it holds no carriage return, no-break space or Unicode
    separator), and the typing timer stopped, and no typing tick can happen
    after that; so [finish_loading] and 31 ticks show its sample text of 30
    characters. *)
Theorem typing_runs_to_the_end (text : str) (self : ArticleGenerator) :
  (exists final,
     typing_ticks (length text + 1) (update_gui_with_generated_article text self)
     = Some final /\
     toPlainText (generated_text_area final) = map shown text /\
     (Forall (fun c => shown c = c) text ->
      toPlainText (generated_text_area final) = text) /\
     current_typing_position final = Some (length text) /\
     isActive (typing_timer final) = false /\
     typing_ticks 1 final = None) /\
  (exists final,
     typing_ticks 31 (finish_loading self) = Some final /\
     toPlainText (generated_text_area final)
     = lit "Sample generated article text." /\
     isActive (typing_timer final) = false).
Proof.
  split.
  - destruct (typing_to_the_end text self)
      as (final & Hk & Hdoc & Hp & _ & Hty & _ & Hno).
    exists final. split; [exact Hk|]. split; [exact Hdoc|].
    split; [|auto].
    intros Hplain. rewrite Hdoc. apply map_shown_unchanged. exact Hplain.
  - destruct (typing_to_the_end (lit "Sample generated article text.") self)
      as (final & Hk & Hdoc & _ & _ & Hty & _).
    exists final. auto.
Qed.

(** X10. One submission from start to end. The user fills in the three
    fields and clicks; the loading animation ticks any number of times; the
    worker runs and its signal is delivered; the typing animation ticks
    once for each character of the article and once more. Then the display
    shows the article, each character as the widget reads it back (the
    article itself when it holds no carriage return, no-break space or
    Unicode separator); the article is what the service answered to the
    article request made from its answer to the outline request; exactly
    these two requests were sent; the application is idle, with no thread
    or signal left and no timer that can fire. *)
Theorem one_submission_end_to_end
    (w : World) (title tags notes : str) (n : nat) :
  let req1 := outline_request title notes tags default_temperature in
  let outline := reply (fst (service req1 w)) in
  let req2 := article_request outline default_temperature in
  let article := reply (fst (service req2 (snd (service req1 w)))) in
  exists s,
    run service
      ([TitleEdited title; TagsEdited tags; NotesEdited notes; GenerateClicked]
       ++ repeat EllipsisTimeout n
       ++ [ThreadRuns 0; SignalDelivered]
       ++ repeat TypingTimeout (length article + 1))
      (initial w) = Some s /\
    toPlainText (generated_text_area (gui s)) = map shown article /\
    (Forall (fun c => shown c = c) article ->
     toPlainText (generated_text_area (gui s)) = article) /\
    phase (gui s) = Some Idle /\
    sent (runtime s) = [req1; req2] /\
    threads s = [] /\
    emitted (runtime s) = [] /\
    step service TypingTimeout s = None /\
    step service EllipsisTimeout s = None.
Proof.
  intros req1 outline req2 article.
  pose (s1 := mkSystem
                (fst (generate_article
                        (set_notes_entry notes
                           (set_tags_entry tags
                              (set_title_entry title ArticleGenerator_new)))))
                [(title, tags, notes)] (mkRuntime w [] [] [])).
  rewrite run_app.
  change (run service
            [TitleEdited title; TagsEdited tags; NotesEdited notes; GenerateClicked]
            (initial w)) with (Some s1).
  cbv beta iota.
  rewrite run_app, (run_ellipsis_ticks World service n s1 eq_refl).
  change ([ThreadRuns 0; SignalDelivered]
          ++ repeat TypingTimeout (length article + 1))
    with (ThreadRuns 0 :: SignalDelivered
          :: repeat TypingTimeout (length article + 1)).
  rewrite run_cons.
  unfold step at 1. cbn [threads s1 nth_error runtime].
  rewrite call_openai_api_run.
  cbn [world sent emitted stdout app remove_nth gui].
  fold req1. fold outline. fold req2. fold article.
  rewrite run_cons.
  unfold step at 1. cbn [runtime emitted gui threads world sent stdout].
  rewrite run_typing_ticks. cbn [gui threads runtime].
  match goal with
  | |- context [typing_ticks _ (update_gui_with_generated_article _ ?g)] =>
      destruct (typing_to_the_end article g)
        as (final & Hk & Hdoc & _ & _ & Hty & Hell & _)
  end.
  rewrite Hk. eexists. split; [reflexivity|].
  cbn [gui threads runtime emitted sent].
  split; [exact Hdoc|].
  split; [intros Hplain; rewrite Hdoc; apply map_shown_unchanged; exact Hplain|].
  split; [unfold phase; rewrite Hell, Hty; reflexivity|].
  split; [reflexivity|]. split; [reflexivity|]. split; [reflexivity|].
  simpl. rewrite Hty, Hell. auto.
Qed.

End ShellExtras.

Section TaskExtras.

Variable World : Type.
Variable service : Request -> World -> result Response * World.

Lemma count_cons (kind : Event -> bool) (ev : Event) (evs : list Event) :
  count kind (ev :: evs) = (if kind ev then 1 else 0) + count kind evs.
Proof. unfold count. simpl. destruct (kind ev); reflexivity. Qed.

Lemma length_remove_nth {A : Type} (i : nat) (l : list A) (x : A) :
  nth_error l i = Some x -> S (length (remove_nth i l)) = length l.
Proof.
  revert i. induction l as [|a l IH]; intros [|i] H; simpl in *;
    try discriminate; [reflexivity|].
  f_equal. apply IH. exact H.
Qed.

(** Clicks start threads, threads turn into signals, signals are
    delivered: what one trigger does to the counts. *)
Lemma run_counts (evs : list Event) (s s' : System World) :
  run service evs s = Some s' ->
  count is_click evs + length (threads s)
  = length (threads s') + count is_thread_run evs /\
  count is_thread_run evs + length (emitted (runtime s))
  = length (emitted (runtime s')) + count is_delivery evs /\
  length (sent (runtime s'))
  = length (sent (runtime s)) + 2 * count is_thread_run evs /\
  stdout (runtime s') = stdout (runtime s).
Proof.
  revert s. induction evs as [|ev evs IH]; intros s Hrun.
  - simpl in Hrun. inversion Hrun; subst. unfold count. simpl.
    repeat split; lia.
  - rewrite run_cons in Hrun.
    destruct (step service ev s) as [s1|] eqn:Hstep; [|discriminate].
    destruct (IH s1 Hrun) as (H1 & H2 & H3 & H4).
    rewrite !count_cons.
    destruct ev; simpl in Hstep; cbn [is_click is_thread_run is_delivery].
    + inversion Hstep; subst. simpl in *. repeat split; try lia. exact H4.
    + inversion Hstep; subst. simpl in *. repeat split; try lia. exact H4.
    + inversion Hstep; subst. simpl in *. repeat split; try lia. exact H4.
    + inversion Hstep; subst. simpl in *. rewrite length_app in H1. simpl in H1.
      repeat split; try lia. exact H4.
    + destruct (nth_error (threads s) i) as [[[title tags] notes]|] eqn:Hn;
        [|discriminate].
      rewrite call_openai_api_run in Hstep. inversion Hstep; subst.
      apply length_remove_nth in Hn. simpl in *.
      rewrite !length_app in *. simpl in *. repeat split; try lia. exact H4.
    + destruct (emitted (runtime s)) as [|text waiting] eqn:He; [discriminate|].
      inversion Hstep; subst. simpl in *. repeat split; try lia. exact H4.
    + destruct (isActive (ellipsis_timer (gui s))); [|discriminate].
      inversion Hstep; subst. simpl in *. repeat split; try lia. exact H4.
    + destruct (isActive (typing_timer (gui s))); [|discriminate].
      destruct (type_next_character (gui s)); [|discriminate].
      inversion Hstep; subst. simpl in *. repeat split; try lia. exact H4.
Qed.

(** X11. Nothing is lost and nothing is made up, however the submissions
    overlap. In every state the application can reach, each click so far is
    a thread still to run or a thread that ran; each thread that ran is a
    signal still waiting or a result delivered; each thread that ran sent
    exactly two requests; and nothing was printed. *)
Theorem tasks_are_conserved (w : World) (evs : list Event) (s : System World) :
  run service evs (initial w) = Some s ->
  count is_click evs = length (threads s) + count is_thread_run evs /\
  count is_thread_run evs
  = length (emitted (runtime s)) + count is_delivery evs /\
  length (sent (runtime s)) = 2 * count is_thread_run evs /\
  stdout (runtime s) = [].
Proof.
  intros Hrun. destruct (run_counts evs _ _ Hrun) as (H1 & H2 & H3 & H4).
  simpl in *. repeat split; try lia. exact H4.
Qed.

Lemma run_keeps_threads (evs : list Event) (s s' : System World) :
  forallb (fun ev => negb (is_click ev) && negb (is_thread_run ev)) evs = true ->
  run service evs s = Some s' ->
  threads s' = threads s /\ sent (runtime s') = sent (runtime s).
Proof.
  revert s. induction evs as [|ev evs IH]; intros s Hall Hrun.
  - simpl in Hrun. inversion Hrun; subst. auto.
  - rewrite run_cons in Hrun. simpl in Hall.
    apply andb_true_iff in Hall. destruct Hall as [Hev Hall].
    destruct (step service ev s) as [s1|] eqn:Hstep; [|discriminate].
    destruct (IH s1 Hall Hrun) as [Ht Hs]. rewrite Ht, Hs.
    destruct ev; simpl in Hstep; try discriminate Hev.
    + inversion Hstep; subst. auto.
    + inversion Hstep; subst. auto.
    + inversion Hstep; subst. auto.
    + destruct (emitted (runtime s)); [discriminate|].
      inversion Hstep; subst. auto.
    + destruct (isActive (ellipsis_timer (gui s))); [|discriminate].
      inversion Hstep; subst. auto.
    + destruct (isActive (typing_timer (gui s))); [|discriminate].
      destruct (type_next_character (gui s)); [|discriminate].
      inversion Hstep; subst. auto.
Qed.

(** X12. A submission is a snapshot of the three fields at the click.
    Whatever the user edits afterwards, and whatever is delivered or
    animated meanwhile, the thread the click started, when it runs, sends
    the outline request made from the title, the tags and the notes as they
    were when the button was clicked. *)
Theorem submission_is_a_snapshot (evs : list Event) (s s' : System World) :
  forallb (fun ev => negb (is_click ev) && negb (is_thread_run ev)) evs = true ->
  run service (GenerateClicked :: evs) s = Some s' ->
  threads s'
  = threads s ++ [(title_entry (gui s), tags_entry (gui s), notes_entry (gui s))] /\
  exists s'' req2,
    step service (ThreadRuns (length (threads s))) s' = Some s'' /\
    sent (runtime s'')
    = sent (runtime s)
      ++ [outline_request (title_entry (gui s)) (notes_entry (gui s))
            (tags_entry (gui s)) default_temperature;
          req2].
Proof.
  intros Hall Hrun. rewrite run_cons in Hrun. simpl step in Hrun.
  destruct (run_keeps_threads evs _ _ Hall Hrun) as [Ht Hs].
  simpl in Ht, Hs. split; [exact Ht|].
  simpl step. rewrite Ht.
  rewrite nth_error_app2, Nat.sub_diag by apply le_n. simpl nth_error.
  cbv beta iota. rewrite call_openai_api_run. rewrite Hs.
  do 2 eexists. split; reflexivity.
Qed.

End TaskExtras.

(* ===================================================================== *)
(** ** Runs against the service that answers "ab" *)
(* ===================================================================== *)

(** Give the state a run ends in as the witness of an [exists]. *)
Ltac exists_end_of r :=
  let v := eval vm_compute in r in
  match v with Some ?s => exists s end.

(** One submission, its first typed letter. *)
Lemma dot_count_and_paces_terse :
  exists s,
    run terse
      [GenerateClicked; EllipsisTimeout; ThreadRuns 0; SignalDelivered;
       TypingTimeout] (initial 0) = Some s /\
    ellipsis_count (gui s) < 4 /\
    (isActive (ellipsis_timer (gui s)) = true ->
     interval (ellipsis_timer (gui s)) = 500) /\
    (isActive (typing_timer (gui s)) = true ->
     interval (typing_timer (gui s)) = 30).
Proof.
  exists_end_of
    (run terse
       [GenerateClicked; EllipsisTimeout; ThreadRuns 0; SignalDelivered;
        TypingTimeout] (initial 0)).
  split; [vm_compute; reflexivity|].
  apply (dot_count_and_paces nat terse 0
           [GenerateClicked; EllipsisTimeout; ThreadRuns 0; SignalDelivered;
            TypingTimeout]).
  vm_compute. reflexivity.
Defined.

(** The loading animation goes on while the worker runs and until its
    signal is delivered. *)
Lemma animations_switch_only_on_delivery_terse :
  exists s s',
    run terse [GenerateClicked] (initial 0) = Some s /\
    count is_delivery [EllipsisTimeout; ThreadRuns 0; EllipsisTimeout] = 0 /\
    run terse [EllipsisTimeout; ThreadRuns 0; EllipsisTimeout] s = Some s' /\
    (isActive (ellipsis_timer (gui s)) = true ->
     isActive (ellipsis_timer (gui s')) = true) /\
    (isActive (typing_timer (gui s)) = false ->
     isActive (typing_timer (gui s')) = false).
Proof.
  exists_end_of (run terse [GenerateClicked] (initial 0)).
  exists_end_of
    (run terse [GenerateClicked; EllipsisTimeout; ThreadRuns 0; EllipsisTimeout]
       (initial 0)).
  split; [vm_compute; reflexivity|]. split; [reflexivity|].
  split; [vm_compute; reflexivity|].
  apply (animations_switch_only_on_delivery nat terse
           [EllipsisTimeout; ThreadRuns 0; EllipsisTimeout]);
    vm_compute; reflexivity.
Defined.

(** A second submission made while the first result is being typed: both
    animations run, and the typing tick still advances by one. *)
Lemma typing_position_monotonic_terse :
  exists s,
    run terse
      [GenerateClicked; ThreadRuns 0; SignalDelivered; GenerateClicked;
       EllipsisTimeout] (initial 0) = Some s /\
    isActive (typing_timer (gui s)) = true /\
    exists full position s',
      full_generated_text (gui s) = Some full /\
      current_typing_position (gui s) = Some position /\
      position <= length full /\
      step terse TypingTimeout s = Some s' /\
      (position < length full ->
       current_typing_position (gui s') = Some (position + 1) /\
       length (toPlainText (generated_text_area (gui s')))
       = length (toPlainText (generated_text_area (gui s))) + 1 /\
       isActive (typing_timer (gui s')) = true) /\
      (position = length full ->
       current_typing_position (gui s') = Some position /\
       isActive (typing_timer (gui s')) = false).
Proof.
  exists_end_of
    (run terse
       [GenerateClicked; ThreadRuns 0; SignalDelivered; GenerateClicked;
        EllipsisTimeout] (initial 0)).
  split; [vm_compute; reflexivity|]. split; [vm_compute; reflexivity|].
  apply (@typing_position_monotonic nat terse 0
           [GenerateClicked; ThreadRuns 0; SignalDelivered; GenerateClicked;
            EllipsisTimeout]);
    vm_compute; reflexivity.
Defined.

(** One submission typed to its end. *)
Lemma idle_display_is_complete_terse :
  exists s,
    run terse
      [GenerateClicked; ThreadRuns 0; SignalDelivered;
       TypingTimeout; TypingTimeout; TypingTimeout] (initial 0) = Some s /\
    phase (gui s) = Some Idle /\
    ((full_generated_text (gui s) = None /\
      toPlainText (generated_text_area (gui s)) = []) \/
     (exists full,
        full_generated_text (gui s) = Some full /\
        current_typing_position (gui s) = Some (length full) /\
        toPlainText (generated_text_area (gui s)) = map shown full /\
        (Forall (fun c => shown c = c) full ->
         toPlainText (generated_text_area (gui s)) = full))).
Proof.
  exists_end_of
    (run terse
       [GenerateClicked; ThreadRuns 0; SignalDelivered;
        TypingTimeout; TypingTimeout; TypingTimeout] (initial 0)).
  split; [vm_compute; reflexivity|]. split; [vm_compute; reflexivity|].
  apply (idle_display_is_complete nat terse 0
           [GenerateClicked; ThreadRuns 0; SignalDelivered;
            TypingTimeout; TypingTimeout; TypingTimeout]);
    vm_compute; reflexivity.
Defined.

(** Three clicks, of which the second has run and been delivered. *)
Lemma tasks_are_conserved_terse :
  exists s,
    run terse
      [GenerateClicked; GenerateClicked; ThreadRuns 1; SignalDelivered;
       GenerateClicked] (initial 0) = Some s /\
    count is_click
      [GenerateClicked; GenerateClicked; ThreadRuns 1; SignalDelivered;
       GenerateClicked]
    = length (threads s)
      + count is_thread_run
          [GenerateClicked; GenerateClicked; ThreadRuns 1; SignalDelivered;
           GenerateClicked] /\
    count is_thread_run
      [GenerateClicked; GenerateClicked; ThreadRuns 1; SignalDelivered;
       GenerateClicked]
    = length (emitted (runtime s))
      + count is_delivery
          [GenerateClicked; GenerateClicked; ThreadRuns 1; SignalDelivered;
           GenerateClicked] /\
    length (sent (runtime s))
    = 2 * count is_thread_run
            [GenerateClicked; GenerateClicked; ThreadRuns 1; SignalDelivered;
             GenerateClicked] /\
    stdout (runtime s) = [].
Proof.
  exists_end_of
    (run terse
       [GenerateClicked; GenerateClicked; ThreadRuns 1; SignalDelivered;
        GenerateClicked] (initial 0)).
  split; [vm_compute; reflexivity|].
  apply (tasks_are_conserved nat terse 0
           [GenerateClicked; GenerateClicked; ThreadRuns 1; SignalDelivered;
            GenerateClicked]).
  vm_compute. reflexivity.
Defined.

(** The title is changed after the click; the request has the title of
    the click. *)
Lemma submission_is_a_snapshot_terse :
  exists s s',
    run terse [TitleEdited (lit "T")] (initial 0) = Some s /\
    forallb (fun ev => negb (is_click ev) && negb (is_thread_run ev))
      [TitleEdited (lit "U"); EllipsisTimeout] = true /\
    run terse (GenerateClicked :: [TitleEdited (lit "U"); EllipsisTimeout]) s
    = Some s' /\
    threads s'
    = threads s ++ [(title_entry (gui s), tags_entry (gui s), notes_entry (gui s))] /\
    exists s'' req2,
      step terse (ThreadRuns (length (threads s))) s' = Some s'' /\
      sent (runtime s'')
      = sent (runtime s)
        ++ [outline_request (title_entry (gui s)) (notes_entry (gui s))
              (tags_entry (gui s)) default_temperature;
            req2].
Proof.
  exists_end_of (run terse [TitleEdited (lit "T")] (initial 0)).
  exists_end_of
    (run terse
       [TitleEdited (lit "T"); GenerateClicked; TitleEdited (lit "U");
        EllipsisTimeout] (initial 0)).
  split; [vm_compute; reflexivity|]. split; [reflexivity|].
  split; [vm_compute; reflexivity|].
  apply (submission_is_a_snapshot nat terse
           [TitleEdited (lit "U"); EllipsisTimeout]);
    vm_compute; reflexivity.
Defined.

Section SerialExtras.

Variable World : Type.
Variable service : Request -> World -> result Response * World.

(** X13. While the user submits only when the application is idle, at
    most one task is outstanding, as a thread still to run or as a signal
    still to deliver; one is outstanding exactly while the loading
    animation runs; and the two animations never run at the same time. *)
Theorem serial_one_task_outstanding
    (w : World) (evs : list Event) (s : System World) :
  run_serial service evs (initial w) = Some s ->
  length (threads s) + length (emitted (runtime s)) <= 1 /\
  (length (threads s) + length (emitted (runtime s)) = 1 <->
   phase (gui s) = Some Loading) /\
  isActive (ellipsis_timer (gui s)) && isActive (typing_timer (gui s)) = false.
Proof.
  intros Hrun.
  assert (Hone : one_task_at_a_time s).
  { eapply run_serial_one_task; [apply one_task_initial|exact Hrun]. }
  unfold one_task_at_a_time in Hone.
  assert (Hboth : isActive (ellipsis_timer (gui s))
                  && isActive (typing_timer (gui s)) = false).
  { unfold phase in Hone.
    destruct (isActive (ellipsis_timer (gui s))),
             (isActive (typing_timer (gui s))); try reflexivity; contradiction. }
  destruct (phase (gui s)) as [[| |]|]; try contradiction.
  - destruct Hone as [-> ->]. simpl.
    split; [lia|]. split; [|exact Hboth]. split; [lia|discriminate].
  - rewrite Hone. split; [lia|]. split; [|exact Hboth]. split; reflexivity.
  - destruct Hone as [-> ->]. simpl.
    split; [lia|]. split; [|exact Hboth]. split; [lia|discriminate].
Qed.

End SerialExtras.

(** The worker of one submission has run and its signal waits. *)
Lemma serial_one_task_outstanding_terse :
  exists s,
    run_serial terse [GenerateClicked; EllipsisTimeout; ThreadRuns 0] (initial 0)
    = Some s /\
    length (threads s) + length (emitted (runtime s)) <= 1 /\
    (length (threads s) + length (emitted (runtime s)) = 1 <->
     phase (gui s) = Some Loading) /\
    isActive (ellipsis_timer (gui s)) && isActive (typing_timer (gui s)) = false.
Proof.
  exists_end_of
    (run_serial terse [GenerateClicked; EllipsisTimeout; ThreadRuns 0] (initial 0)).
  split; [vm_compute; reflexivity|].
  apply (serial_one_task_outstanding nat terse 0
           [GenerateClicked; EllipsisTimeout; ThreadRuns 0]).
  vm_compute. reflexivity.
Defined.
